(** * aplatam.train: the command-line entry point of the training step

    A shallow embedding of [aplatam/train.py].  The module parses the command
    line, configures logging, reads the [[train]] section of a configuration
    file, lists the rasters of a directory, checks that every raster has four
    bands and hands over to [build_trainset].

    The Python code is effectful: it logs, opens files, calls collaborators
    and raises exceptions.  It is embedded in a state-and-exception monad
    whose state holds the process-wide logging configuration, the records
    written to the log, and the sequence of calls made to the outside world.
    The file system is a read-only [World], which also says what the
    libraries and the collaborators write to their loggers; the two
    collaborators that live in other modules of the package
    ([all_raster_files], [build_trainset]) and [tempfile.gettempdir()] are
    parameters of the development.

    A Python [str] is a Rocq [string] whose characters are the code points
    of the text: the model covers text over the code points 0 to 255, and a
    character above 255 cannot be written in it.  String literals of this
    file are ASCII. *)

From Stdlib Require Import Ascii String.
From stdpp Require Import gmap strings list pretty.

Local Open Scope Z_scope.

(** ** Exceptions and results *)

Inductive exception : Type :=
| SystemExit (status : Z)
| KeyError (key : string)
| RuntimeError (message : string)
| RasterioIOError (path : string)
| DriverError (path : string)
| ValueError (message : string)
| UnicodeDecodeError
| MissingSectionHeaderError (source : string)
| ParsingError (source : string)
| DuplicateSectionError (section : string)
| DuplicateOptionError (section optname : string)
| InterpolationSyntaxError (optname section : string)
| InterpolationMissingOptionError (optname section reference : string)
| InterpolationDepthError (optname section : string)
| CollaboratorError (description : string)
(** not a Python exception: the run leaves what is modelled *)
| NotModelled (what : string).

Inductive result (A : Type) : Type :=
| Ok (a : A)
| Raise (e : exception).

Arguments Ok {A} a.
Arguments Raise {A} e.

Definition result_bind {A B} (r : result A) (k : A → result B) : result B :=
  match r with
  | Ok a => k a
  | Raise e => Raise e
  end.

(** ** The outside world *)

(** What reading a text file that [open] opens gives: its decoded text, or
    the text that is read before the reading stops with an exception that is
    no [OSError] ([UnicodeDecodeError] where the bytes do not decode; with no
    text at all, the [ValueError] of [open] for a path with a NUL
    character). *)
Inductive file : Type :=
| text (content : string)
| broken (content : string) (e : exception).

(** A log record: its level and its message. *)
Definition record : Type := Z * string.

Record World : Type := mkWorld {
  (** rasters that [rasterio.open] can open, with the band count of their header *)
  raster_files : gmap string Z;
  (** the records that rasterio's loggers hand on to the root logger while a
      path is opened, read and closed, or while its opening fails *)
  rasterio_records : string → list record;
  (** files that [open] opens; [open] raises [OSError] for the others *)
  config_files : gmap string file;
  (** vector files that [fiona.open] can open, with their CRS *)
  vector_files : gmap string string;
  (** the records that fiona's loggers hand on to the root logger while a
      path is opened, read and closed, or while its opening fails *)
  fiona_records : string → list record;
  (** the records that the loggers of the collaborators hand on to the root
      logger during a call of [all_raster_files] and of [build_trainset] *)
  all_raster_files_records : string → list record;
  build_trainset_records :
    list string → string → gmap string string → string → list record
}.

(** ** Process state *)

(** What the code does to the outside, oldest call first. *)
Inductive Event : Type :=
| BasicConfig (level : option Z)
| LogCall (level : Z) (msg : string)
| ReadConfig (path : string)
| ListRasters (dir : string)
| OpenRaster (path : string)
| CloseRaster (path : string)
| OpenVector (path : string)
| CloseVector (path : string)
| BuildTrainset (rasters : list string) (vector : string)
    (config : gmap string string) (temp_dir : string).

Record State : Type := mkState {
  (** the root logger has a handler *)
  root_handlers : bool;
  (** level of the root logger *)
  root_level : Z;
  (** records passed to the root logger's handlers, oldest first *)
  log_output : list record;
  trace : list Event
}.

(** ** The monad *)

Definition M (A : Type) : Type := State → result A * State.

Definition ret {A} (a : A) : M A := λ s, (Ok a, s).

Definition raise {A} (e : exception) : M A := λ s, (Raise e, s).

Definition bind {A B} (m : M A) (k : A → M B) : M B := λ s,
  match m s with
  | (Ok a, s') => k a s'
  | (Raise e, s') => (Raise e, s')
  end.

Definition lift {A} (r : result A) : M A := λ s, (r, s).

(** The state after further calls. *)
Definition extend (s : State) (events : list Event) : State :=
  mkState (root_handlers s) (root_level s) (log_output s) (trace s ++ events).

Definition emit (e : Event) : M unit := λ s, (Ok tt, extend s [e]).

Declare Scope py_scope.
Delimit Scope py_scope with py.
Notation "x <- m ;; k" := (bind m (λ x, k))
  (at level 100, m at next level, right associativity) : py_scope.
Notation "m ;; k" := (bind m (λ _, k))
  (at level 100, right associativity) : py_scope.
Local Open Scope py_scope.

(** ** logging *)

Module logging.

Definition DEBUG : Z := 10.
Definition INFO : Z := 20.
Definition WARNING : Z := 30.

(** A process starts with an unconfigured root logger at level WARNING. *)
Definition fresh : State := mkState false WARNING [] [].

(** [logging.basicConfig(level=..., stream=sys.stdout, ...)]: does nothing
    when the root logger already has a handler; otherwise installs the
    stream handler and, when [level] is not None, sets the root level. *)
Definition basicConfig (level : option Z) : M unit := λ s,
  (Ok tt,
   if root_handlers s
   then mkState true (root_level s) (log_output s) (trace s ++ [BasicConfig level])
   else mkState true (default (root_level s) level) (log_output s)
          (trace s ++ [BasicConfig level])).

(** A record of [level] reaches the root handler when a handler is
    installed and the effective level (the root's: the module logger has
    none of its own) admits it.  Without a handler only the last-resort
    handler runs, which drops everything below WARNING. *)
Definition enabled (level : Z) (s : State) : bool :=
  root_handlers s && (root_level s <=? level).

(** [_logger.log(level, msg)] *)
Definition log (level : Z) (msg : string) : M unit := λ s,
  (Ok tt,
   mkState (root_handlers s) (root_level s)
     (if enabled level s then log_output s ++ [(level, msg)] else log_output s)
     (trace s ++ [LogCall level msg])).

Definition debug (msg : string) : M unit := log DEBUG msg.
Definition info (msg : string) : M unit := log INFO msg.

(** Records of loggers of other modules.  Those loggers have no level of
    their own, so that the root's level decides, and their records propagate
    to the handlers of the root logger.  They are no calls of this module:
    the trace stays as it is. *)
Definition propagate (records : list record) : M unit := λ s,
  (Ok tt,
   mkState (root_handlers s) (root_level s)
     (log_output s ++ List.filter (λ r, enabled r.1 s) records)
     (trace s)).

End logging.

(** ** train.py: the raster checks *)

Section Rasters.

Variable w : World.

(** [with rasterio.open(raster_path) as dataset: return dataset.count];
    rasterio logs while it works. *)
Definition get_raster_band_count (raster_path : string) : M Z :=
  emit (OpenRaster raster_path);;
  logging.propagate (rasterio_records w raster_path);;
  match raster_files w !! raster_path with
  | Some count => emit (CloseRaster raster_path);; ret count
  | None => raise (RasterioIOError raster_path)
  end.

(** ['Rasters must have exactly 4 bands (was {})'.format(count)] *)
Definition wrong_band_count (count : Z) : string :=
  "Rasters must have exactly 4 bands (was " +:+ pretty count +:+ ")".

(** The [for raster_path in rasters] loop. *)
Fixpoint check_rasters (rasters : list string) : M unit :=
  match rasters with
  | [] => ret tt
  | raster_path :: rest =>
      count <- get_raster_band_count raster_path;;
      if bool_decide (count ≠ 4)
      then raise (RuntimeError (wrong_band_count count))
      else check_rasters rest
  end.

Definition validate_rasters_band_count (rasters : list string) : M bool :=
  logging.debug "Validate rasters band count";;
  check_rasters rasters;;
  ret true.

(** [with fiona.open(vector_path) as dataset: return dataset.crs]; fiona
    logs while it works. *)
Definition get_vector_crs (vector_path : string) : M string :=
  emit (OpenVector vector_path);;
  logging.propagate (fiona_records w vector_path);;
  match vector_files w !! vector_path with
  | Some crs => emit (CloseVector vector_path);; ret crs
  | None => raise (DriverError vector_path)
  end.

End Rasters.

(** ** str *)

(** The methods of [str] and the classes of [re] that the libraries below
    use, on code points below 256. *)
Module str.

Definition code (c : Ascii.ascii) : N := Ascii.N_of_ascii c.

(** [c.isspace()], which is also the class [\s] of [re] *)
Definition isspace (c : Ascii.ascii) : bool :=
  let n := code c in
  (((9 <=? n) && (n <=? 13)) || ((28 <=? n) && (n <=? 32)) ||
   (n =? 133) || (n =? 160))%N.

(** [c.isupper()]: A to Z, and the capital letters from 192 to 222 but for
    the multiplication sign.  These are the characters that [lower]
    changes. *)
Definition isupper (c : Ascii.ascii) : bool :=
  let n := code c in
  (((65 <=? n) && (n <=? 90)) || ((192 <=? n) && (n <=? 214)) ||
   ((216 <=? n) && (n <=? 222)))%N.

Definition lower_char (c : Ascii.ascii) : Ascii.ascii :=
  if isupper c then Ascii.ascii_of_N (code c + 32) else c.

(** [s.lower()] *)
Fixpoint lower (s : string) : string :=
  match s with
  | EmptyString => EmptyString
  | String c s' => String (lower_char c) (lower s')
  end.

(** a capital letter somewhere in [s] *)
Fixpoint has_upper (s : string) : bool :=
  match s with
  | EmptyString => false
  | String c s' => isupper c || has_upper s'
  end.

(** [s.lstrip()] *)
Fixpoint lstrip (s : string) : string :=
  match s with
  | String c s' => if isspace c then lstrip s' else s
  | EmptyString => s
  end.

(** [s.rstrip()]: the result is empty when only white space follows. *)
Fixpoint rstrip (s : string) : string :=
  match s with
  | String c s' =>
      match rstrip s' with
      | EmptyString => if isspace c then EmptyString else String c EmptyString
      | t => String c t
      end
  | EmptyString => EmptyString
  end.

(** [s.strip()] *)
Definition strip (s : string) : string := rstrip (lstrip s).

(** Where [\S] is first found in [s]: the number of white-space characters
    that [s] begins with. *)
Fixpoint first_nonspace (s : string) : nat :=
  match s with
  | String c s' => if isspace c then S (first_nonspace s') else O
  | EmptyString => O
  end.

Definition LF : Ascii.ascii := Ascii.ascii_of_N 10.
Definition CR : Ascii.ascii := Ascii.ascii_of_N 13.

(** The lines of a text that is read with universal newlines, without
    their line ends: a line ends at LF, at CR or at CR LF, and what follows
    the last line end is a line when it is not empty.  [line] is the
    beginning of the line that is being read. *)
Fixpoint lines_from (line : string) (s : string) : list string :=
  match s with
  | EmptyString =>
      match line with
      | EmptyString => []
      | _ => [line]
      end
  | String c s' =>
      if Ascii.eqb c LF then line :: lines_from EmptyString s'
      else if Ascii.eqb c CR
      then match s' with
           | String d s'' =>
               if Ascii.eqb d LF then line :: lines_from EmptyString s''
               else line :: lines_from EmptyString s'
           | EmptyString => [line]
           end
      else lines_from (line +:+ String c EmptyString) s'
  end.

Definition lines (s : string) : list string := lines_from EmptyString s.

(** ['\n'.join(l)] *)
Fixpoint join_lines (l : list string) : string :=
  match l with
  | [] => EmptyString
  | [line] => line
  | line :: l' => line +:+ String LF (join_lines l')
  end.

End str.

(** ** configparser *)

(** [configparser.ConfigParser()] as CPython 3.11 has it, with the settings
    of its defaults: strict, delimiters [=] and [:], comment prefixes [#] and
    [;], no inline comments, empty lines in values, options with values
    only, basic interpolation, [optionxform = str.lower].  The parser is one
    that has read nothing before. *)
Module configparser.

Definition MAX_INTERPOLATION_DEPTH : nat := 10.
Definition default_section : string := "DEFAULT".

(** [optionxform]: [optionstr.lower()] *)
Definition optionxform (optionstr : string) : string := str.lower optionstr.

(** Python dictionaries with string keys whose order matters: entries in
    insertion order. *)
Fixpoint getitem {V} (key : string) (d : list (string * V)) : option V :=
  match d with
  | [] => None
  | (k, v) :: d' => if String.eqb k key then Some v else getitem key d'
  end.

Definition contains {V} (key : string) (d : list (string * V)) : bool :=
  match getitem key d with Some _ => true | None => false end.

(** [d[key] = v]: in its place for a key that [d] has, at the end for a
    new one *)
Fixpoint setitem {V} (key : string) (v : V) (d : list (string * V)) : list (string * V) :=
  match d with
  | [] => [(key, v)]
  | (k, v') :: d' =>
      if String.eqb k key then (k, v) :: d' else (k, v') :: setitem key v d'
  end.

(** The parser: the options of DEFAULT, and the other sections.  While a
    file is read a value is the list of its lines; it is kept here as the
    lines joined by newlines. *)
Record ConfigParser : Type := mkConfigParser {
  _defaults : list (string * string);
  _sections : list (string * list (string * string))
}.

(** [configparser.ConfigParser()] *)
Definition new : ConfigParser := mkConfigParser [] [].

(** [SECTCRE.match(value)]: [\[(?P<header>.+)\]] at the beginning of
    [value]; the header goes up to the last closing bracket. *)
Fixpoint before_last_bracket (s : string) : option string :=
  match s with
  | EmptyString => None
  | String c s' =>
      match before_last_bracket s' with
      | Some h => Some (String c h)
      | None => if Ascii.eqb c "]"%char then Some EmptyString else None
      end
  end.

Definition header (value : string) : option string :=
  match value with
  | String c rest =>
      if Ascii.eqb c "["%char
      then match before_last_bracket rest with
           | Some (String d h) => Some (String d h)
           | _ => None
           end
      else None
  | EmptyString => None
  end.

(** [value] cut at its first delimiter *)
Fixpoint partition (value : string) : option (string * string) :=
  match value with
  | EmptyString => None
  | String c rest =>
      if Ascii.eqb c "="%char || Ascii.eqb c ":"%char then Some (EmptyString, rest)
      else match partition rest with
           | Some (option, rest') => Some (String c option, rest')
           | None => None
           end
  end.

(** [OPTCRE.match(value)], the groups [option] and [value]: the shortest
    beginning of [value] that white space and a delimiter follow, and what
    comes after the delimiter and the white space behind it. *)
Definition option_line (value : string) : option (string * string) :=
  match partition value with
  | Some (option, rest) => Some (str.rstrip option, str.lstrip rest)
  | None => None
  end.

(** [line.strip().startswith(prefix)] for a comment prefix *)
Definition is_comment (line : string) : bool :=
  match str.strip line with
  | String c _ => Ascii.eqb c "#"%char || Ascii.eqb c ";"%char
  | EmptyString => false
  end.

(** The variables of the loop of [_read]: the parser, [cursect] (by the
    name of the section, DEFAULT for [self._defaults]), [optname] (the empty
    string also stands for [None]), [indent_level], and [e] (whether a
    [ParsingError] is pending). *)
Record Reader : Type := mkReader {
  config : ConfigParser;
  cursect : option string;
  optname : string;
  indent_level : nat;
  pending : bool
}.

Definition cursect_dict (self : ConfigParser) (sectname : string) : list (string * string) :=
  if String.eqb sectname default_section then _defaults self
  else default [] (getitem sectname (_sections self)).

Definition set_cursect (self : ConfigParser) (sectname : string)
    (d : list (string * string)) : ConfigParser :=
  if String.eqb sectname default_section then mkConfigParser d (_sections self)
  else mkConfigParser (_defaults self) (setitem sectname d (_sections self)).

(** [cursect is not None and optname] *)
Definition in_option (r : Reader) : bool :=
  match cursect r, optname r with
  | Some _, String _ _ => true
  | _, _ => false
  end.

(** [cursect[optname].append(value)] *)
Definition append_value (value : string) (r : Reader) : Reader :=
  match cursect r with
  | Some sectname =>
      let d := cursect_dict (config r) sectname in
      match getitem (optname r) d with
      | Some lines =>
          mkReader
            (set_cursect (config r) sectname
               (setitem (optname r) (lines +:+ String str.LF value) d))
            (cursect r) (optname r) (indent_level r) (pending r)
      | None => r
      end
  | None => r
  end.

(** The body of the loop of [_read], for one line. *)
Definition read_line (fpname line : string) (r : Reader) : result Reader :=
  if is_comment line then Ok r
  else
  let value := str.strip line in
  match value with
  | EmptyString => Ok (if in_option r then append_value EmptyString r else r)
  | _ =>
  let cur_indent_level := str.first_nonspace line in
  if in_option r && (indent_level r <? cur_indent_level)%nat
  then Ok (append_value value r)
  else
  match header value with
  | Some sectname =>
      if contains sectname (_sections (config r))
      then Raise (DuplicateSectionError sectname)
      else
        Ok (mkReader
              (if String.eqb sectname default_section then config r
               else mkConfigParser (_defaults (config r))
                      (_sections (config r) ++ [(sectname, [])]))
              (Some sectname) EmptyString cur_indent_level (pending r))
  | None =>
  match cursect r with
  | None => Raise (MissingSectionHeaderError fpname)
  | Some sectname =>
  match option_line value with
  | Some (option, optval) =>
      let optname := optionxform (str.rstrip option) in
      let d := cursect_dict (config r) sectname in
      if contains optname d
      then Raise (DuplicateOptionError sectname optname)
      else
        Ok (mkReader
              (set_cursect (config r) sectname (d ++ [(optname, str.strip optval)]))
              (Some sectname) optname cur_indent_level
              (pending r || match option with EmptyString => true | _ => false end))
  | None =>
      Ok (mkReader (config r) (cursect r) (optname r) cur_indent_level true)
  end end end end.

Fixpoint read_lines (fpname : string) (lines : list string) (r : Reader)
    : result Reader :=
  match lines with
  | [] => Ok r
  | line :: lines' => result_bind (read_line fpname line r) (read_lines fpname lines')
  end.

Definition rstrip_values (d : list (string * string)) : list (string * string) :=
  (λ kv, (kv.1, str.rstrip kv.2)) <$> d.

(** [_join_multiline_values]: the lines of each value are joined and what
    white space they end with is dropped. *)
Definition _join_multiline_values (self : ConfigParser) : ConfigParser :=
  mkConfigParser (rstrip_values (_defaults self))
    ((λ sec, (sec.1, rstrip_values sec.2)) <$> _sections self).

(** The loop of [_read], from its beginning. *)
Definition read_all (self : ConfigParser) (fpname : string) (lines : list string)
    : result Reader :=
  read_lines fpname lines (mkReader self None EmptyString 0 false).

(** [_read(fp, fpname)] for a file whose lines are [lines] *)
Definition _read (self : ConfigParser) (fpname : string) (lines : list string)
    : result ConfigParser :=
  result_bind (read_all self fpname lines) (λ r,
  if pending r then Raise (ParsingError fpname)
  else Ok (_join_multiline_values (config r))).

(** [_read] for a file of the world *)
Definition read_file (self : ConfigParser) (fpname : string) (f : file)
    : result ConfigParser :=
  match f with
  | text content => _read self fpname (str.lines content)
  | broken content e =>
      result_bind (read_all self fpname (str.lines content)) (λ _, Raise e)
  end.

(** [self.read(filename)]: a file that cannot be opened is skipped. *)
Definition read (w : World) (self : ConfigParser) (filename : string) : M ConfigParser :=
  emit (ReadConfig filename);;
  match config_files w !! filename with
  | Some f => lift (read_file self filename f)
  | None => ret self
  end.

Definition has_section (self : ConfigParser) (section : string) : bool :=
  contains section (_sections self).

(** [self[key]]: the proxy of a section is represented by its name. *)
Definition getitem_section (self : ConfigParser) (key : string) : result string :=
  if negb (String.eqb key default_section) && negb (has_section self key)
  then Raise (KeyError key)
  else Ok key.

Definition sectiondict (self : ConfigParser) (section : string) : list (string * string) :=
  default [] (getitem section (_sections self)).

(** [ChainMap(sectiondict, self._defaults)[key]] *)
Definition unified (self : ConfigParser) (section key : string) : option string :=
  match getitem key (sectiondict self section) with
  | Some v => Some v
  | None => getitem key (_defaults self)
  end.

(** [self.options(section)]: the section's own names, then the names of
    DEFAULT that the section does not define. *)
Definition options (self : ConfigParser) (section : string) : list string :=
  let own := sectiondict self section in
  own.*1 ++ filter (λ k, contains k own = false) (_defaults self).*1.

Fixpoint has_percent (s : string) : bool :=
  match s with
  | EmptyString => false
  | String c s' => if Ascii.eqb c "%"%char then true else has_percent s'
  end.

(** Where [_interpolate_some] stands in the value: in plain text, just after
    a [%], inside [%(name], or after the closing parenthesis. *)
Inductive scan : Type :=
| Text
| Percent
| Name (name : string)
| Closed (name : string).

(** [BasicInterpolation._interpolate_some]; [fuel] is
    [MAX_INTERPOLATION_DEPTH + 1 - depth]. *)
Fixpoint _interpolate_some (fuel : nat) (optname section : string)
    (map : string → option string) : string → result string :=
  match fuel with
  | O => λ _, Raise (InterpolationDepthError optname section)
  | S fuel' =>
      (fix go (at_ : scan) (rest : string) {struct rest} : result string :=
         match at_, rest with
         | Text, EmptyString => Ok EmptyString
         | Text, String c rest' =>
             if Ascii.eqb c "%"%char then go Percent rest'
             else result_bind (go Text rest') (λ out, Ok (String c out))
         | Percent, String c rest' =>
             if Ascii.eqb c "%"%char
             then result_bind (go Text rest') (λ out, Ok (String "%"%char out))
             else if Ascii.eqb c "("%char then go (Name EmptyString) rest'
             else Raise (InterpolationSyntaxError optname section)
         | Name name, String c rest' =>
             if Ascii.eqb c ")"%char
             then match name with
                  | EmptyString => Raise (InterpolationSyntaxError optname section)
                  | _ => go (Closed name) rest'
                  end
             else go (Name (name +:+ String c EmptyString)) rest'
         | Closed name, String c rest' =>
             if Ascii.eqb c "s"%char
             then match map (optionxform name) with
                  | None =>
                      Raise (InterpolationMissingOptionError optname section
                               (optionxform name))
                  | Some v =>
                      result_bind
                        (if has_percent v
                         then _interpolate_some fuel' optname section map v
                         else Ok v) (λ expansion,
                      result_bind (go Text rest') (λ out,
                      Ok (expansion +:+ out)))
                  end
             else Raise (InterpolationSyntaxError optname section)
         | _, EmptyString => Raise (InterpolationSyntaxError optname section)
         end) Text
  end.

(** [BasicInterpolation.before_get] *)
Definition before_get (self : ConfigParser) (section optname value : string)
    : result string :=
  _interpolate_some MAX_INTERPOLATION_DEPTH optname section
    (unified self section) value.

(** [proxy[key]] for the proxy of [section] *)
Definition getitem_option (self : ConfigParser) (section key : string) : result string :=
  match unified self section (optionxform key) with
  | Some value => before_get self section (optionxform key) value
  | None => Raise (KeyError key)
  end.

(** [dict(proxy)]: the keys in order, each with its interpolated value. *)
Fixpoint dict_items (self : ConfigParser) (section : string) (keys : list string)
    (acc : gmap string string) : result (gmap string string) :=
  match keys with
  | [] => Ok acc
  | key :: keys' =>
      result_bind (getitem_option self section key) (λ value,
      dict_items self section keys' (<[key := value]> acc))
  end.

Definition dict (self : ConfigParser) (section : string) : result (gmap string string) :=
  dict_items self section (options self section) ∅.

End configparser.

(** ** train.py: the configuration file *)

Section Config.

Variable w : World.

Definition read_config_file (config_file : string) : M (gmap string string) :=
  logging.debug "read config file";;
  config <- configparser.read w configparser.new config_file;;
  train <- lift (configparser.getitem_section config "train");;
  lift (configparser.dict config train).

End Config.

(** ** Built-ins *)

Module builtins.

Definition is_digit (c : Ascii.ascii) : bool :=
  let n := Ascii.N_of_ascii c in ((48 <=? n) && (n <=? 57))%N.

Definition digit_value (c : Ascii.ascii) : Z :=
  Z.of_N (Ascii.N_of_ascii c) - 48.

(** The white space that [int] strips: tab to carriage return and space,
    and the two white-space characters from 128 on.  (The separators 28 to
    31 are white space for [str.strip], not for [int].) *)
Definition is_space (c : Ascii.ascii) : bool :=
  let n := Ascii.N_of_ascii c in
  (((9 <=? n) && (n <=? 13)) || (n =? 32) || (n =? 133) || (n =? 160))%N.

Fixpoint lstrip (s : string) : string :=
  match s with
  | String c s' => if is_space c then lstrip s' else s
  | EmptyString => s
  end.

(** [s.rstrip()]: the result is empty when only blanks follow. *)
Fixpoint rstrip (s : string) : string :=
  match s with
  | String c s' =>
      match rstrip s' with
      | EmptyString => if is_space c then EmptyString else String c EmptyString
      | t => String c t
      end
  | EmptyString => EmptyString
  end.

(** Digits of a decimal literal after the first one: single underscores
    may separate digits. *)
Fixpoint more_digits (acc : Z) (s : string) : option Z :=
  match s with
  | EmptyString => Some acc
  | String c s' =>
      if is_digit c then more_digits (10 * acc + digit_value c) s'
      else if Ascii.eqb c "_"%char
      then match s' with
           | String d s'' =>
               if is_digit d then more_digits (10 * acc + digit_value d) s''
               else None
           | EmptyString => None
           end
      else None
  end.

Definition digits (s : string) : option Z :=
  match s with
  | String c s' => if is_digit c then more_digits (digit_value c) s' else None
  | EmptyString => None
  end.

(** The number of digits in [s]. *)
Fixpoint count_digits (s : string) : Z :=
  match s with
  | EmptyString => 0
  | String c s' => (if is_digit c then 1 else 0) + count_digits s'
  end.

(** [sys.int_info.default_max_str_digits]: the longest decimal numeral that
    [int] converts, unless the process is set up otherwise. *)
Definition max_str_digits : Z := 4300.

(** [int(s)] for a string: [None] stands for [ValueError]. *)
Definition int (s : string) : option Z :=
  if max_str_digits <? count_digits s then None
  else
  match rstrip (lstrip s) with
  | String c s' =>
      if Ascii.eqb c "-"%char then Z.opp <$> digits s'
      else if Ascii.eqb c "+"%char then digits s'
      else digits (String c s')
  | EmptyString => None
  end.

End builtins.

(** ** argparse *)

(** [ArgumentParser.parse_args] as CPython 3.11 implements it, for parsers
    whose arguments take no value or exactly one: options may be abbreviated,
    joined to their value ([--seed=1], [-cFILE]), clustered ([-vo FILE]), and
    mixed with the positionals; [--] ends the options.  What the parser
    prints is not modelled, only how it leaves: [SystemExit 2] for a usage
    error, [SystemExit 0] after [--help] or [--version]. *)
Module argparse.

Definition error {A} : result A := Raise (SystemExit 2).
Definition exit {A} : result A := Raise (SystemExit 0).

Definition first_is_dash (s : string) : bool :=
  match s with
  | String c _ => Ascii.eqb c "-"%char
  | EmptyString => false
  end.

Definition second_is_dash (s : string) : bool :=
  match s with
  | String _ (String c _) => Ascii.eqb c "-"%char
  | _ => false
  end.

(** [s.split('=', 1)] when [s] has an [=] *)
Fixpoint split_eq (s : string) : option (string * string) :=
  match s with
  | EmptyString => None
  | String c s' =>
      if Ascii.eqb c "="%char then Some (EmptyString, s')
      else match split_eq s' with
           | Some (l, r) => Some (String c l, r)
           | None => None
           end
  end.

Fixpoint has_space (s : string) : bool :=
  match s with
  | EmptyString => false
  | String c s' => if Ascii.eqb c " "%char then true else has_space s'
  end.

Fixpoint skip_digits (s : string) : nat * string :=
  match s with
  | String c s' =>
      if builtins.is_digit c
      then let '(n, r) := skip_digits s' in (S n, r)
      else (O, s)
  | EmptyString => (O, s)
  end.

(** [$]: the end of the string, or just before a final newline *)
Definition at_end (s : string) : bool :=
  match s with
  | EmptyString => true
  | String c EmptyString => Ascii.eqb c (Ascii.ascii_of_N 10)
  | _ => false
  end.

(** [_negative_number_matcher]: [^-\d+$|^-\d*\.\d+$] *)
Definition negative_number (s : string) : bool :=
  match s with
  | String c body =>
      Ascii.eqb c "-"%char &&
      let '(n, r) := skip_digits body in
      ((0 <? n)%nat && at_end r) ||
      match r with
      | String d r' =>
          Ascii.eqb d "."%char &&
          let '(m, r'') := skip_digits r' in (0 <? m)%nat && at_end r''
      | EmptyString => false
      end
  | EmptyString => false
  end.

Section Parser.

(** the type of the namespace *)
Context {NS : Type}.

(** An argument of the parser: no option string for a positional;
    [nargs] is 0 (flags) or 1; [call] converts and stores the value. *)
Record Action : Type := mkAction {
  option_strings : list string;
  nargs : nat;
  call : option string → NS → result NS
}.

(** [action='store'] (the default), with [type=str] (the default) *)
Definition store (option_strings : list string) (set : string → NS → NS) : Action :=
  mkAction option_strings 1 (λ value ns,
    match value with
    | Some v => Ok (set v ns)
    | None => Ok ns
    end).

(** [action='store', type=int]: a string that [int] rejects is a usage
    error *)
Definition store_int (option_strings : list string) (set : Z → NS → NS) : Action :=
  mkAction option_strings 1 (λ value ns,
    match value with
    | Some v =>
        match builtins.int v with
        | Some n => Ok (set n ns)
        | None => error
        end
    | None => Ok ns
    end).

(** [action='store_const'] *)
Definition store_const (option_strings : list string) (set : NS → NS) : Action :=
  mkAction option_strings 0 (λ _ ns, Ok (set ns)).

(** [action='version']: prints and exits *)
Definition version (option_strings : list string) : Action :=
  mkAction option_strings 0 (λ _ _, exit).

(** [-h/--help], which every parser has: prints and exits *)
Definition help : Action :=
  mkAction ["-h"; "--help"] 0 (λ _ _, exit).

Variable _actions : list Action.

Definition _option_string_actions : list (string * Action) :=
  flat_map (λ action, (λ o, (o, action)) <$> option_strings action) _actions.

Definition _get_positional_actions : list Action :=
  filter (λ action, option_strings action = []) _actions.

Fixpoint lookup_option (o : string) (table : list (string * Action)) : option Action :=
  match table with
  | [] => None
  | (o', action) :: table' =>
      if String.eqb o' o then Some action else lookup_option o table'
  end.

(** What an argument string that is taken for an option stands for: the
    action (none for an unknown option), the option string as declared,
    and the value joined to it. *)
Definition option_tuple : Type := option Action * string * option string.

Definition _get_option_tuples (option_string : string) : list option_tuple :=
  if second_is_dash option_string
  then
    let '(option_prefix, explicit_arg) :=
      match split_eq option_string with
      | Some (l, r) => (l, Some r)
      | None => (option_string, None)
      end in
    flat_map (λ '(o, action),
      if String.prefix option_prefix o
      then [(Some action, o, explicit_arg)] else []) _option_string_actions
  else
    let short_option_prefix := String.substring 0 2 option_string in
    let short_explicit_arg :=
      String.substring 2 (String.length option_string - 2) option_string in
    flat_map (λ '(o, action),
      if String.eqb o short_option_prefix
      then [(Some action, o, Some short_explicit_arg)]
      else if String.prefix option_string o
      then [(Some action, o, None)] else []) _option_string_actions.

(** [_parse_optional]: [Ok None] for a positional.  No option of these
    parsers looks like a negative number. *)
Definition _parse_optional (arg_string : string) : result (option option_tuple) :=
  if negb (first_is_dash arg_string) then Ok None
  else match lookup_option arg_string _option_string_actions with
  | Some action => Ok (Some (Some action, arg_string, None))
  | None =>
  if (String.length arg_string =? 1)%nat then Ok None
  else match
    match split_eq arg_string with
    | Some (o, explicit_arg) =>
        match lookup_option o _option_string_actions with
        | Some action => Some (Some action, o, Some explicit_arg)
        | None => None
        end
    | None => None
    end
  with
  | Some t => Ok (Some t)
  | None =>
  match _get_option_tuples arg_string with
  | _ :: _ :: _ => error
  | [t] => Ok (Some t)
  | [] =>
  if negative_number arg_string then Ok None
  else if has_space arg_string then Ok None
  else Ok (Some (None, arg_string, None))
  end end end.

(** The pattern of the command line: [A], [O] or [-] for each string. *)
Inductive Token : Type :=
| Arg (arg_string : string)
| Opt (t : option_tuple) (arg_string : string)
| Sep.

Fixpoint classify (arg_strings : list string) : result (list Token) :=
  match arg_strings with
  | [] => Ok []
  | arg_string :: rest =>
      if String.eqb arg_string "--" then Ok (Sep :: (Arg <$> rest))
      else result_bind (_parse_optional arg_string) (λ t,
           result_bind (classify rest) (λ toks,
           Ok (match t with
               | Some t => Opt t arg_string
               | None => Arg arg_string
               end :: toks)))
  end.

(** State of [_parse_known_args]. *)
Record Parse : Type := mkParse {
  namespace : NS;
  positionals : list Action;
  extras : list string
}.

(** [arg_strings.remove('--')] *)
Fixpoint remove_sep (arg_strings : list string) : list string :=
  match arg_strings with
  | [] => []
  | s :: rest => if String.eqb s "--" then rest else s :: remove_sep rest
  end.

(** [_get_values].  When an argument that takes one value is left with
    none, because its value was spelled [--] (as in [--seed=--]), or with
    two, CPython stores a list and [parse_args] returns; the namespaces
    here have strings and integers only, and the run is then marked as
    leaving the model. *)
Definition _get_values (action : Action) (arg_strings : list string)
    : result (option string) :=
  if (nargs action =? 0)%nat then Ok None
  else match remove_sep arg_strings with
       | [arg_string] => Ok (Some arg_string)
       | _ => Raise (NotModelled "list-valued argument")
       end.

Definition take_action (action : Action) (argument_strings : list string)
    (p : Parse) : result Parse :=
  result_bind (_get_values action argument_strings) (λ argument_values,
  result_bind (call action argument_values (namespace p)) (λ ns,
  Ok (mkParse ns (positionals p) (extras p)))).

Fixpoint take_actions (action_tuples : list (Action * list string)) (p : Parse)
    : result Parse :=
  match action_tuples with
  | [] => Ok p
  | (action, args) :: action_tuples' =>
      result_bind (take_action action args p) (take_actions action_tuples')
  end.

(** The loop of [consume_optional] while there is an explicit argument:
    the actions to take, and the option that is left to take its
    argument from the strings that follow. *)
Fixpoint explicit (action : Action) (option_string explicit_arg : string)
    : result (list (Action * list string) * option Action) :=
  match explicit_arg with
  | String c rest =>
      if (nargs action =? 0)%nat && negb (second_is_dash option_string)
      then
        match lookup_option (String "-"%char (String c EmptyString))
                _option_string_actions with
        | Some action' =>
            match rest with
            | EmptyString => Ok ([(action, [])], Some action')
            | _ =>
                result_bind
                  (explicit action' (String "-"%char (String c EmptyString)) rest)
                  (λ '(action_tuples, last), Ok ((action, []) :: action_tuples, last))
            end
        | None => error
        end
      else if (nargs action =? 1)%nat
      then Ok ([(action, [explicit_arg])], None)
      else error
  | EmptyString =>
      if (nargs action =? 1)%nat
      then Ok ([(action, [explicit_arg])], None)
      else error
  end.

(** One [A] before the last option string: it goes to the next positional
    or, when none is left, to the extras. *)
Definition consume_positional (arg_string : string) (p : Parse) : result Parse :=
  match positionals p with
  | action :: rest =>
      take_action action [arg_string] (mkParse (namespace p) rest (extras p))
  | [] => Ok (mkParse (namespace p) [] (extras p ++ [arg_string]))
  end.

Fixpoint skip_sep (toks : list Token) : list string * list Token :=
  match toks with
  | Sep :: toks' => let '(seps, rest) := skip_sep toks' in ("--" :: seps, rest)
  | _ => ([], toks)
  end.

(** A match of [-*A-*] at the head of the pattern: its strings, and what
    follows. *)
Definition slice (toks : list Token) : option (list string * list Token) :=
  let '(before, toks1) := skip_sep toks in
  match toks1 with
  | Arg arg_string :: toks2 =>
      let '(after, toks3) := skip_sep toks2 in
      Some (before ++ arg_string :: after, toks3)
  | _ => None
  end.

Fixpoint slices (n : nat) (toks : list Token)
    : option (list (list string) * list Token) :=
  match n with
  | O => Some ([], toks)
  | S n' =>
      match slice toks with
      | Some (strings, rest) =>
          match slices n' rest with
          | Some (l, rest') => Some (strings :: l, rest')
          | None => None
          end
      | None => None
      end
  end.

(** [_match_arguments_partial] for [n] positionals of one value each: as
    many as the pattern allows. *)
Fixpoint _match_arguments_partial (n : nat) (toks : list Token)
    : list (list string) * list Token :=
  match n with
  | O => ([], toks)
  | S n' =>
      match slices n toks with
      | Some r => r
      | None => _match_arguments_partial n' toks
      end
  end.

Fixpoint take_positionals (args : list (list string)) (p : Parse) : result Parse :=
  match args, positionals p with
  | strings :: args', action :: rest =>
      result_bind
        (take_action action strings (mkParse (namespace p) rest (extras p)))
        (take_positionals args')
  | _, _ => Ok p
  end.

Definition arg_string_of (t : Token) : string :=
  match t with
  | Arg arg_string | Opt _ arg_string => arg_string
  | Sep => "--"
  end.

(** [consume_positionals] after the last option string; what is left
    goes to the extras. *)
Definition consume_tail (toks : list Token) (p : Parse) : result Parse :=
  let '(args, rest) := _match_arguments_partial (length (positionals p)) toks in
  result_bind (take_positionals args p) (λ p',
  Ok (mkParse (namespace p') (positionals p') (extras p' ++ (arg_string_of <$> rest)))).

Definition is_option (t : Token) : bool :=
  match t with
  | Opt _ _ => true
  | _ => false
  end.

(** The alternation of [consume_positionals] and [consume_optional] while
    an option string is ahead, then [consume_positionals] once more. *)
Fixpoint consume (toks : list Token) (p : Parse) : result Parse :=
  if negb (existsb is_option toks) then consume_tail toks p
  else
  match toks with
  | Arg arg_string :: toks' =>
      result_bind (consume_positional arg_string p) (consume toks')
  | Opt (None, _, _) arg_string :: toks' =>
      consume toks' (mkParse (namespace p) (positionals p) (extras p ++ [arg_string]))
  | Opt (Some action, option_string, explicit_arg) _ :: toks' =>
      result_bind
        match explicit_arg with
        | Some e => explicit action option_string e
        | None => Ok ([], Some action)
        end (λ '(action_tuples, last),
      match last with
      | None => result_bind (take_actions action_tuples p) (consume toks')
      | Some action' =>
          if (nargs action' =? 0)%nat
          then result_bind (take_actions (action_tuples ++ [(action', [])]) p)
                 (consume toks')
          else match toks' with
               | Arg value :: toks'' =>
                   result_bind
                     (take_actions (action_tuples ++ [(action', [value])]) p)
                     (consume toks'')
               | _ => error
               end
      end)
  | _ => consume_tail toks p
  end.

(** [parse_args(args)] on a namespace that holds the defaults. *)
Definition parse_args (defaults : NS) (args : list string) : result NS :=
  result_bind (classify args) (λ toks,
  result_bind (consume toks (mkParse defaults _get_positional_actions [])) (λ p,
  match positionals p, extras p with
  | [], [] => Ok (namespace p)
  | _, _ => error
  end)).

End Parser.

Arguments Action : clear implicits.

End argparse.

(** ** train.py: the command line *)

(** The attributes of the namespace that [parse_args] returns. *)
Record Namespace : Type := mkNamespace {
  rasters_dir : string;
  vector : string;
  config_file : string;
  output_model : string;
  seed : option Z;
  temp_dir : string;
  loglevel : option Z
}.

Definition set_rasters_dir (v : string) (ns : Namespace) : Namespace :=
  mkNamespace v (vector ns) (config_file ns) (output_model ns) (seed ns)
    (temp_dir ns) (loglevel ns).

Definition set_vector (v : string) (ns : Namespace) : Namespace :=
  mkNamespace (rasters_dir ns) v (config_file ns) (output_model ns) (seed ns)
    (temp_dir ns) (loglevel ns).

Definition set_config_file (v : string) (ns : Namespace) : Namespace :=
  mkNamespace (rasters_dir ns) (vector ns) v (output_model ns) (seed ns)
    (temp_dir ns) (loglevel ns).

Definition set_output_model (v : string) (ns : Namespace) : Namespace :=
  mkNamespace (rasters_dir ns) (vector ns) (config_file ns) v (seed ns)
    (temp_dir ns) (loglevel ns).

Definition set_seed (v : Z) (ns : Namespace) : Namespace :=
  mkNamespace (rasters_dir ns) (vector ns) (config_file ns) (output_model ns)
    (Some v) (temp_dir ns) (loglevel ns).

Definition set_temp_dir (v : string) (ns : Namespace) : Namespace :=
  mkNamespace (rasters_dir ns) (vector ns) (config_file ns) (output_model ns)
    (seed ns) v (loglevel ns).

Definition set_loglevel (const : Z) (ns : Namespace) : Namespace :=
  mkNamespace (rasters_dir ns) (vector ns) (config_file ns) (output_model ns)
    (seed ns) (temp_dir ns) (Some const).

(** The arguments that [parse_args] declares, in the order of the
    [add_argument] calls, after the [-h] that [ArgumentParser] adds itself. *)
Definition parser : list (argparse.Action Namespace) :=
  [ argparse.help;
    argparse.version ["--version"];
    argparse.store [] set_rasters_dir;
    argparse.store [] set_vector;
    argparse.store ["-c"; "--config-file"] set_config_file;
    argparse.store ["-o"; "--output-model"] set_output_model;
    argparse.store_int ["--seed"] set_seed;
    argparse.store ["--temp-dir"] set_temp_dir;
    argparse.store_const ["-v"; "--verbose"] (set_loglevel logging.INFO);
    argparse.store_const ["-vv"; "--very-verbose"] (set_loglevel logging.DEBUG) ].

(** ** train.py: the entry point *)

Section Train.

(** [tempfile.gettempdir()] *)
Variable gettempdir : string.

(** [aplatam.util.all_raster_files]: the raster paths of a directory, or
    the exception it raises.  What the two collaborators log is in the
    [World]. *)
Variable all_raster_files : string → result (list string).

(** [aplatam.build_trainset.build_trainset]: whether it returns or raises. *)
Variable build_trainset :
  list string → string → gmap string string → string → result unit.

Variable w : World.

(** The defaults of the namespace.  The two positionals are [None] until
    they are given; [parse_args] returns only when both are. *)
Definition defaults : Namespace :=
  mkNamespace "" "" "default.cfg" "model.h5" None gettempdir None.

Definition parse_args (args : list string) : result Namespace :=
  argparse.parse_args parser defaults args.

Definition setup_logging (loglevel : option Z) : M unit :=
  logging.basicConfig loglevel.

Definition call_all_raster_files (dir : string) : M (list string) :=
  emit (ListRasters dir);;
  logging.propagate (all_raster_files_records w dir);;
  lift (all_raster_files dir).

Definition call_build_trainset (rasters : list string) (vector : string)
    (config : gmap string string) (temp_dir : string) : M unit :=
  emit (BuildTrainset rasters vector config temp_dir);;
  logging.propagate (build_trainset_records w rasters vector config temp_dir);;
  lift (build_trainset rasters vector config temp_dir).

Definition main (args : list string) : M unit :=
  args <- lift (parse_args args);;
  setup_logging (loglevel args);;
  config <- read_config_file w (config_file args);;
  logging.debug "Collect all rasters";;
  rasters <- call_all_raster_files (rasters_dir args);;
  validate_rasters_band_count w rasters;;
  call_build_trainset rasters (vector args) config (temp_dir args);;
  logging.info "Done".

End Train.

(** ** train.py: the console script *)

Section Console.

Variable gettempdir : string.
Variable all_raster_files : string → result (list string).
Variable build_trainset :
  list string → string → gmap string string → string → result unit.
Variable w : World.

(** [main(sys.argv[1:])] *)
Definition run (sys_argv : list string) : M unit :=
  main gettempdir all_raster_files build_trainset w (drop 1 sys_argv).

End Console.

(** ** Reading traces *)

(** The state after a call of the module logger. *)
Definition logged (level : Z) (msg : string) (s : State) : State :=
  mkState (root_handlers s) (root_level s)
    (if logging.enabled level s then log_output s ++ [(level, msg)] else log_output s)
    (trace s ++ [LogCall level msg]).

(** The state after records of other loggers. *)
Definition propagated (records : list record) (s : State) : State :=
  mkState (root_handlers s) (root_level s)
    (log_output s ++ List.filter (λ r, logging.enabled r.1 s) records)
    (trace s).

(** What [read_config_file] returns or raises: it depends on the file alone. *)
Definition train_options (w : World) (config_file : string) : result (gmap string string) :=
  result_bind
    match config_files w !! config_file with
    | Some f => configparser.read_file configparser.new config_file f
    | None => Ok configparser.new
    end (λ config,
  result_bind (configparser.getitem_section config "train") (configparser.dict config)).

(** The states that a run of [main] goes through before it validates the
    rasters: after [setup_logging], after [read_config_file], and after
    [all_raster_files]. *)
Definition configured (ns : Namespace) (s : State) : State :=
  (logging.basicConfig (loglevel ns) s).2.

Definition config_read (ns : Namespace) (s : State) : State :=
  extend (logged logging.DEBUG "read config file" (configured ns s))
    [ReadConfig (config_file ns)].

Definition listed (w : World) (ns : Namespace) (s : State) : State :=
  propagated (all_raster_files_records w (rasters_dir ns))
    (extend (logged logging.DEBUG "Collect all rasters" (config_read ns s))
       [ListRasters (rasters_dir ns)]).

(** The events of opening and closing each raster of a list in turn. *)
Definition opened (rasters : list string) : list Event :=
  flat_map (λ p, [OpenRaster p; CloseRaster p]) rasters.

Definition is_build_trainset (e : Event) : bool :=
  match e with
  | BuildTrainset _ _ _ _ => true
  | _ => false
  end.

Definition is_open_vector (e : Event) : bool :=
  match e with
  | OpenVector _ => true
  | _ => false
  end.

(** How often [build_trainset] was called, and how often a vector file was
    opened. *)
Definition builds (events : list Event) : nat :=
  length (List.filter is_build_trainset events).

Definition vector_opens (events : list Event) : nat :=
  length (List.filter is_open_vector events).

(** The events of a run that started in [s] and ended in [s']. *)
Definition since (s s' : State) : list Event :=
  drop (length (trace s)) (trace s').

(** The configuration files that were read, in order. *)
Definition config_reads (events : list Event) : list string :=
  flat_map (λ e, match e with ReadConfig path => [path] | _ => [] end) events.

(** The level that a verbosity flag stores. *)
Definition flag_level (flag : string) : option Z :=
  if String.eqb flag "-v" || String.eqb flag "--verbose" then Some logging.INFO
  else if String.eqb flag "-vv" || String.eqb flag "--very-verbose"
  then Some logging.DEBUG
  else None.

(** ** Reading configuration files *)

(** The option names of a dictionary have no capital letter. *)
Definition lowercase_keys (d : list (string * string)) : Prop :=
  Forall (λ key, str.has_upper key = false) d.*1.

(** ... and so in DEFAULT and in every section of a parser. *)
Definition lowercase_options (self : configparser.ConfigParser) : Prop :=
  lowercase_keys (configparser._defaults self) ∧
  Forall (λ sec : string * list (string * string), lowercase_keys sec.2)
    (configparser._sections self).

(** A line that [_read] passes over before the first section header: a
    comment, or white space alone. *)
Definition is_skipped (line : string) : bool :=
  configparser.is_comment line ||
  match str.strip line with
  | EmptyString => true
  | _ => false
  end.

(** The exceptions of [_read]. *)
Definition is_reading_error (e : exception) : bool :=
  match e with
  | MissingSectionHeaderError _ | ParsingError _
  | DuplicateSectionError _ | DuplicateOptionError _ _ => true
  | _ => false
  end.

(** The exceptions of basic interpolation. *)
Definition is_interpolation_error (e : exception) : bool :=
  match e with
  | InterpolationSyntaxError _ _
  | InterpolationMissingOptionError _ _ _
  | InterpolationDepthError _ _ => true
  | _ => false
  end.

(** The value of an option of a section: the section's own, or else the one
    of DEFAULT. *)
Definition chain (own defaults : list (string * string)) (key : string) : option string :=
  match configparser.getitem key own with
  | Some v => Some v
  | None => configparser.getitem key defaults
  end.

(** A percent sign that starts neither [%%] nor [%(]. *)
Definition bare_percent (rest : string) : bool :=
  match rest with
  | EmptyString => true
  | String c _ => negb (Ascii.eqb c "%"%char) && negb (Ascii.eqb c "("%char)
  end.

(** ** Sample runs *)

Module sample.

(** What rasterio logs for a path, whether it opens or not. *)
Definition rasterio_log (path : string) : list record :=
  [(logging.DEBUG, "Entering env context"); (logging.DEBUG, "Exiting env context")].

(** What fiona logs for a path. *)
Definition fiona_log (path : string) : list record :=
  [(logging.DEBUG, "Entering env context"); (logging.DEBUG, "Exiting env context")].

(** Three rasters, one of them with three bands; four configuration files:
    one with a [train] section alone, one with a DEFAULT section as well, one
    whose [train] section has a lone percent sign, one without a [train]
    section; and a vector file.  The collaborators log nothing. *)
Definition world : World :=
  mkWorld
    (<["tiles/a.tif" := 4]> (<["tiles/b.tif" := 3]> (<["tiles/c.tif" := 4]> ∅)))
    rasterio_log
    (<["default.cfg" := text (str.join_lines ["[train]"; "epochs = 10"; ""])]>
      (<["defaults.cfg" :=
           text (str.join_lines ["[DEFAULT]"; "lr = 0.1"; "[train]"; "epochs = 10"; ""])]>
      (<["percent.cfg" := text (str.join_lines ["[train]"; "validation = 20%"; ""])]>
      (<["model.cfg" := text (str.join_lines ["[model]"; "layers = 5"; ""])]> ∅))))
    (<["labels.geojson" := "EPSG:4326"]> ∅)
    fiona_log
    (λ _, [])
    (λ _ _ _ _, []).

Definition gettempdir : string := "/tmp".

Definition good_rasters : list string := ["tiles/a.tif"; "tiles/c.tif"].
Definition all_rasters : list string := ["tiles/a.tif"; "tiles/b.tif"; "tiles/c.tif"].

(** A list with a raster that cannot be opened before the one of three
    bands. *)
Definition with_lost : list string := ["tiles/a.tif"; "tiles/lost.tif"; "tiles/b.tif"].

(** [all_raster_files] on a directory layout where [tiles] holds all three
    rasters, [good] the two valid ones, and any other directory none. *)
Definition all_raster_files (dir : string) : result (list string) :=
  if String.eqb dir "tiles" then Ok all_rasters
  else if String.eqb dir "good" then Ok good_rasters
  else Ok [].

Definition build_trainset (rasters : list string) (vector : string)
    (config : gmap string string) (temp_dir : string) : result unit :=
  Ok tt.

(** A builder that fails. *)
Definition failing_build_trainset (rasters : list string) (vector : string)
    (config : gmap string string) (temp_dir : string) : result unit :=
  Raise (CollaboratorError "build_trainset").

(** The logging state after [setup_logging(logging.DEBUG)] in a fresh
    process. *)
Definition very_verbose : State := mkState true logging.DEBUG [] [].

(** A world whose configuration files cannot be read to their end: one has
    the section [model] twice, one begins with an option, one has a line that
    is no option, one holds bytes that do not decode. *)
Definition unread : World :=
  mkWorld ∅ rasterio_log
    (<["twice.cfg" := text (str.join_lines ["[model]"; "layers = 5"; "[model]"; ""])]>
      (<["headless.cfg" := text (str.join_lines ["epochs = 10"; ""])]>
      (<["junk.cfg" := text (str.join_lines ["[model]"; "layers = 5"; "nonsense"; ""])]>
      (<["binary.cfg" :=
           broken (str.join_lines ["[train]"; "epochs = 10"; ""]) UnicodeDecodeError]> ∅))))
    ∅
    fiona_log
    (λ _, [])
    (λ _ _ _ _, []).

End sample.

(** * Properties *)

(** ** The monad *)

Lemma bind_ok {A B} (m : M A) (k : A → M B) s a s' :
  m s = (Ok a, s') → bind m k s = k a s'.
Proof. intros H. unfold bind. by rewrite H. Qed.

Lemma bind_raise {A B} (m : M A) (k : A → M B) s e s' :
  m s = (Raise e, s') → bind m k s = (Raise e, s').
Proof. intros H. unfold bind. by rewrite H. Qed.

Lemma extend_nil s : extend s [] = s.
Proof. destruct s. unfold extend. simpl. by rewrite app_nil_r. Qed.

Lemma extend_extend s l1 l2 : extend (extend s l1) l2 = extend s (l1 ++ l2).
Proof. unfold extend. simpl. by rewrite app_assoc. Qed.

Lemma emit_run e s : emit e s = (Ok tt, extend s [e]).
Proof. reflexivity. Qed.

Lemma builds_app l1 l2 : builds (l1 ++ l2) = (builds l1 + builds l2)%nat.
Proof. unfold builds. by rewrite List.filter_app, length_app. Qed.

Lemma vector_opens_app l1 l2 :
  vector_opens (l1 ++ l2) = (vector_opens l1 + vector_opens l2)%nat.
Proof. unfold vector_opens. by rewrite List.filter_app, length_app. Qed.

Lemma builds_opened rasters : builds (opened rasters) = 0%nat.
Proof. induction rasters as [|p l IH]; [done|]. exact IH. Qed.

Lemma opened_app l1 l2 : opened (l1 ++ l2) = opened l1 ++ opened l2.
Proof. unfold opened. apply flat_map_app. Qed.

(** ** logging *)

Lemma trace_logged level msg s : trace (logged level msg s) = trace s ++ [LogCall level msg].
Proof. reflexivity. Qed.

Lemma trace_extend s events : trace (extend s events) = trace s ++ events.
Proof. reflexivity. Qed.

Lemma debug_run msg s : logging.debug msg s = (Ok tt, logged logging.DEBUG msg s).
Proof. reflexivity. Qed.

Lemma info_run msg s : logging.info msg s = (Ok tt, logged logging.INFO msg s).
Proof. reflexivity. Qed.

Lemma propagate_run records s : logging.propagate records s = (Ok tt, propagated records s).
Proof. reflexivity. Qed.

Lemma trace_propagated records s : trace (propagated records s) = trace s.
Proof. reflexivity. Qed.

Lemma propagated_nil s : propagated [] s = s.
Proof. destruct s. unfold propagated. simpl. by rewrite app_nil_r. Qed.

(** Records do not change what is enabled: one after the other they are
    written as they would be together. *)
Lemma propagated_propagated l1 l2 s :
  propagated l2 (propagated l1 s) = propagated (l1 ++ l2) s.
Proof. unfold propagated. cbn. by rewrite List.filter_app, app_assoc. Qed.

Lemma propagated_extend records s events :
  propagated records (extend s events) = extend (propagated records s) events.
Proof. reflexivity. Qed.

Lemma logged_propagated level msg s :
  logged level msg s = extend (propagated [(level, msg)] s) [LogCall level msg].
Proof.
  unfold logged, propagated, extend. cbn.
  destruct (logging.enabled level s); [done|by rewrite app_nil_r].
Qed.

(** ** The raster checks *)

Section RasterFacts.

Variable w : World.

(** What rasterio logs for the rasters of a list, in order. *)
Lemma get_raster_band_count_some p count s :
  raster_files w !! p = Some count →
  get_raster_band_count w p s =
    (Ok count, extend (propagated (rasterio_records w p) s) [OpenRaster p; CloseRaster p]).
Proof.
  intros H. unfold get_raster_band_count.
  rewrite (bind_ok _ _ _ _ _ (emit_run _ _)).
  rewrite (bind_ok _ _ _ _ _ (propagate_run _ _)), H.
  rewrite (bind_ok _ _ _ _ _ (emit_run _ _)).
  unfold ret. by rewrite propagated_extend, extend_extend.
Qed.

Lemma get_raster_band_count_none p s :
  raster_files w !! p = None →
  get_raster_band_count w p s =
    (Raise (RasterioIOError p), extend (propagated (rasterio_records w p) s) [OpenRaster p]).
Proof.
  intros H. unfold get_raster_band_count.
  rewrite (bind_ok _ _ _ _ _ (emit_run _ _)).
  by rewrite (bind_ok _ _ _ _ _ (propagate_run _ _)), H.
Qed.

(** The loop goes through rasters of four bands without raising. *)
Lemma check_rasters_all_four rasters s :
  Forall (λ p, raster_files w !! p = Some 4) rasters →
  check_rasters w rasters s =
    (Ok tt, extend (propagated (flat_map (rasterio_records w) rasters) s) (opened rasters)).
Proof.
  intros H. revert s. induction H as [|p l Hp _ IH]; intros s.
  - simpl. unfold ret. by rewrite propagated_nil, extend_nil.
  - simpl. rewrite (bind_ok _ _ _ _ _ (get_raster_band_count_some _ _ _ Hp)).
    simpl. rewrite IH.
    by rewrite propagated_extend, propagated_propagated, extend_extend.
Qed.

(** The loop stops at the first raster whose band count is not four. *)
Lemma check_rasters_mismatch pre p post count s :
  Forall (λ q, raster_files w !! q = Some 4) pre →
  raster_files w !! p = Some count → count ≠ 4 →
  check_rasters w (pre ++ p :: post) s =
    (Raise (RuntimeError (wrong_band_count count)),
     extend (propagated (flat_map (rasterio_records w) (pre ++ [p])) s)
       (opened (pre ++ [p]))).
Proof.
  intros H Hp Hc. revert s. induction H as [|q l Hq _ IH]; intros s.
  - simpl. rewrite (bind_ok _ _ _ _ _ (get_raster_band_count_some _ _ _ Hp)).
    by rewrite bool_decide_true, app_nil_r.
  - simpl. rewrite (bind_ok _ _ _ _ _ (get_raster_band_count_some _ _ _ Hq)).
    simpl. rewrite IH.
    by rewrite propagated_extend, propagated_propagated, extend_extend.
Qed.

(** A list of readable rasters with a mismatch splits at the first one. *)
Lemma first_mismatch rasters :
  Forall (λ p, is_Some (raster_files w !! p)) rasters →
  Exists (λ p, raster_files w !! p ≠ Some 4) rasters →
  ∃ pre p post count,
    rasters = pre ++ p :: post ∧
    Forall (λ q, raster_files w !! q = Some 4) pre ∧
    raster_files w !! p = Some count ∧ count ≠ 4.
Proof.
  induction 1 as [|p l [c Hc] _ IH]; intros Hex; [by inversion Hex|].
  destruct (decide (c = 4)) as [->|Hne].
  - inversion Hex as [? ? Hbad|? ? Hl]; subst; [done|].
    destruct (IH Hl) as (pre & q & post & count & -> & Hpre & Hq & Hcount).
    exists (p :: pre), q, post, count. by repeat split; [constructor|..].
  - exists [], p, l, c. by repeat split.
Qed.

(** Whatever is wrong with a raster, the loop raises, and it only opens and
    closes rasters. *)
Lemma check_rasters_bad rasters s :
  Exists (λ p, raster_files w !! p ≠ Some 4) rasters →
  ∃ e records events,
    check_rasters w rasters s = (Raise e, extend (propagated records s) events) ∧
    builds events = 0%nat ∧ vector_opens events = 0%nat.
Proof.
  intros Hex. revert s. induction rasters as [|p l IH]; intros s; [by inversion Hex|].
  simpl. destruct (raster_files w !! p) as [c|] eqn:Hp.
  - rewrite (bind_ok _ _ _ _ _ (get_raster_band_count_some _ _ _ Hp)).
    case_bool_decide as Hc.
    + by eexists _, _, _.
    + assert (c = 4) as -> by (destruct (decide (c = 4)); [done|by destruct Hc]).
      inversion Hex as [? ? Hbad|? ? Hl]; subst; [done|].
      destruct (IH Hl (extend (propagated (rasterio_records w p) s)
                         [OpenRaster p; CloseRaster p]))
        as (e & records & events & -> & Hb & Hv).
      eexists _, _, _.
      rewrite propagated_extend, propagated_propagated, extend_extend.
      split; [done|].
      by rewrite builds_app, vector_opens_app, Hb, Hv.
  - rewrite (bind_raise _ _ _ _ _ (get_raster_band_count_none _ _ Hp)).
    by eexists _, _, _.
Qed.

Lemma validate_run rasters s :
  validate_rasters_band_count w rasters s =
    match check_rasters w rasters (logged logging.DEBUG "Validate rasters band count" s) with
    | (Ok _, s') => (Ok true, s')
    | (Raise e, s') => (Raise e, s')
    end.
Proof.
  unfold validate_rasters_band_count.
  rewrite (bind_ok _ _ _ _ _ (debug_run _ _)). unfold bind, ret.
  by destruct (check_rasters _ _ _) as [[[]|e] s'].
Qed.

End RasterFacts.

(** C1, as the code has it.  When the first raster of the list that is not
    a readable raster of four bands is a readable raster with another band
    count, [validate_rasters_band_count] raises a [RuntimeError] at that
    raster: the rasters before it are opened and closed in turn, it is the
    last one opened, and no raster after it is touched, whatever comes after
    it.  The message spells the band count of that raster, and is a function
    of the count alone: any other list, in any other world, whose first
    mismatch has the same count raises the same error, whatever the files
    are called. *)
Theorem validate_rasters_band_count_first_mismatch (w : World) (pre : list string)
    (p : string) (post : list string) (count : Z) (s : State) :
  Forall (λ q, raster_files w !! q = Some 4) pre →
  raster_files w !! p = Some count →
  count ≠ 4 →
  (validate_rasters_band_count w (pre ++ p :: post) s).1 =
    Raise (RuntimeError
      ("Rasters must have exactly 4 bands (was " +:+ pretty count +:+ ")")) ∧
  trace (validate_rasters_band_count w (pre ++ p :: post) s).2 =
    trace s ++ LogCall logging.DEBUG "Validate rasters band count"
      :: opened pre ++ [OpenRaster p; CloseRaster p] ∧
  ∀ w' pre' p' post' s',
    Forall (λ q, raster_files w' !! q = Some 4) pre' →
    raster_files w' !! p' = Some count →
    (validate_rasters_band_count w' (pre' ++ p' :: post') s').1 =
    (validate_rasters_band_count w (pre ++ p :: post) s).1.
Proof.
  intros Hpre Hp Hcount. repeat split.
  - by rewrite validate_run, (check_rasters_mismatch w _ _ _ _ _ Hpre Hp Hcount).
  - rewrite validate_run, (check_rasters_mismatch w _ _ _ _ _ Hpre Hp Hcount).
    cbn [snd]. rewrite trace_extend, trace_propagated, trace_logged, opened_app.
    simpl. by rewrite <- app_assoc.
  - intros w' pre' p' post' s' Hpre' Hp'.
    by rewrite !validate_run, (check_rasters_mismatch w _ _ _ _ _ Hpre Hp Hcount),
      (check_rasters_mismatch w' _ _ _ _ _ Hpre' Hp' Hcount).
Qed.

Lemma validate_rasters_band_count_first_mismatch_witness :
  Forall (λ q, raster_files sample.world !! q = Some 4) ["tiles/a.tif"] ∧
  raster_files sample.world !! "tiles/b.tif" = Some 3 ∧
  (validate_rasters_band_count sample.world sample.all_rasters logging.fresh).1 =
    Raise (RuntimeError "Rasters must have exactly 4 bands (was 3)") ∧
  trace (validate_rasters_band_count sample.world sample.all_rasters logging.fresh).2 =
    [LogCall logging.DEBUG "Validate rasters band count";
     OpenRaster "tiles/a.tif"; CloseRaster "tiles/a.tif";
     OpenRaster "tiles/b.tif"; CloseRaster "tiles/b.tif"].
Proof.
  assert (Forall (λ q, raster_files sample.world !! q = Some 4) ["tiles/a.tif"])
    as Hpre by (repeat constructor).
  split; [exact Hpre|]. split; [reflexivity|].
  destruct (validate_rasters_band_count_first_mismatch sample.world
              ["tiles/a.tif"] "tiles/b.tif" ["tiles/c.tif"] 3 logging.fresh
              Hpre eq_refl ltac:(lia)) as (Hresult & Htrace & _).
  split; [exact Hresult|exact Htrace].
Defined.

(** C1, as the specification has it, fails: a list that contains a raster of
    three bands does not raise the error of the band count when a raster
    that cannot be opened comes before it.  The error of rasterio for that
    raster is what [validate_rasters_band_count] ends with, and the raster of
    three bands is never opened. *)
Lemma validate_rasters_band_count_unreadable_first :
  Exists (λ p, ∃ count, raster_files sample.world !! p = Some count ∧ count ≠ 4)
    sample.with_lost ∧
  (validate_rasters_band_count sample.world sample.with_lost logging.fresh).1 =
    Raise (RasterioIOError "tiles/lost.tif") ∧
  (∀ message,
     (validate_rasters_band_count sample.world sample.with_lost logging.fresh).1 ≠
       Raise (RuntimeError message)) ∧
  trace (validate_rasters_band_count sample.world sample.with_lost logging.fresh).2 =
    [LogCall logging.DEBUG "Validate rasters band count";
     OpenRaster "tiles/a.tif"; CloseRaster "tiles/a.tif";
     OpenRaster "tiles/lost.tif"].
Proof.
  split.
  - apply Exists_cons_tl, Exists_cons_tl, Exists_cons_hd. exists 3. split; [done|lia].
  - split; [by vm_compute|]. split; [|by vm_compute].
    intros message H. vm_compute in H. discriminate.
Qed.

(** C3, as the code has it.  On a list of rasters that all have four bands
    (the empty list included) [validate_rasters_band_count] returns [True].
    It leaves the logging configuration alone, but it is not free of
    effects: it makes one debug call to the logger and it opens and closes
    every raster of the list, in order; and the log gains what the logging
    level admits of the record of that call and of the records of rasterio
    for each raster. *)
Theorem validate_rasters_band_count_all_four (w : World) (rasters : list string)
    (s : State) :
  Forall (λ p, raster_files w !! p = Some 4) rasters →
  (validate_rasters_band_count w rasters s).1 = Ok true ∧
  root_handlers (validate_rasters_band_count w rasters s).2 = root_handlers s ∧
  root_level (validate_rasters_band_count w rasters s).2 = root_level s ∧
  log_output (validate_rasters_band_count w rasters s).2 =
    log_output s ++
    List.filter (λ r, logging.enabled r.1 s)
      ((logging.DEBUG, "Validate rasters band count")
         :: flat_map (rasterio_records w) rasters) ∧
  trace (validate_rasters_band_count w rasters s).2 =
    trace s ++ LogCall logging.DEBUG "Validate rasters band count" :: opened rasters.
Proof.
  intros Hall. rewrite validate_run, (check_rasters_all_four w _ _ Hall).
  rewrite logged_propagated, propagated_extend, propagated_propagated, extend_extend.
  repeat split; try done.
Qed.

Lemma validate_rasters_band_count_all_four_witness :
  Forall (λ p, raster_files sample.world !! p = Some 4) sample.good_rasters ∧
  (validate_rasters_band_count sample.world sample.good_rasters sample.very_verbose).1
    = Ok true ∧
  log_output
    (validate_rasters_band_count sample.world sample.good_rasters sample.very_verbose).2 =
    [(logging.DEBUG, "Validate rasters band count");
     (logging.DEBUG, "Entering env context"); (logging.DEBUG, "Exiting env context");
     (logging.DEBUG, "Entering env context"); (logging.DEBUG, "Exiting env context")] ∧
  trace
    (validate_rasters_band_count sample.world sample.good_rasters sample.very_verbose).2 =
    [LogCall logging.DEBUG "Validate rasters band count";
     OpenRaster "tiles/a.tif"; CloseRaster "tiles/a.tif";
     OpenRaster "tiles/c.tif"; CloseRaster "tiles/c.tif"].
Proof.
  assert (Forall (λ p, raster_files sample.world !! p = Some 4) sample.good_rasters)
    as Hall by (repeat constructor).
  split; [exact Hall|].
  destruct (validate_rasters_band_count_all_four sample.world sample.good_rasters
              sample.very_verbose Hall) as (Hresult & _ & _ & Hlog & Htrace).
  split; [exact Hresult|]. split; [exact Hlog|exact Htrace].
Defined.

(** C3, as the specification has it, fails: with debug logging switched on,
    validating two rasters of four bands returns [True] and leaves new
    records in the log, its own and those of rasterio. *)
Lemma validate_rasters_band_count_writes_log :
  Forall (λ p, raster_files sample.world !! p = Some 4) sample.good_rasters ∧
  (validate_rasters_band_count sample.world sample.good_rasters sample.very_verbose).1
    = Ok true ∧
  log_output sample.very_verbose = [] ∧
  log_output
    (validate_rasters_band_count sample.world sample.good_rasters sample.very_verbose).2
    = [(logging.DEBUG, "Validate rasters band count");
       (logging.DEBUG, "Entering env context"); (logging.DEBUG, "Exiting env context");
       (logging.DEBUG, "Entering env context"); (logging.DEBUG, "Exiting env context")] ∧
  (validate_rasters_band_count sample.world sample.good_rasters sample.very_verbose).2
    ≠ sample.very_verbose.
Proof.
  split; [repeat constructor|]. repeat split.
  intros H. apply (f_equal log_output) in H. vm_compute in H. discriminate.
Qed.

(** ** The configuration file *)

Lemma read_config_file_run w config_file s :
  read_config_file w config_file s =
    (train_options w config_file,
     extend (logged logging.DEBUG "read config file" s) [ReadConfig config_file]).
Proof.
  unfold read_config_file, train_options, configparser.read, bind, lift, ret.
  rewrite debug_run, emit_run.
  destruct (config_files w !! config_file) as [f|]; simpl.
  - destruct (configparser.read_file _ _ _) as [config|e]; [|done]. simpl.
    by destruct (configparser.getitem_section _ _).
  - reflexivity.
Qed.

Lemma train_options_no_section w config_file f config :
  config_files w !! config_file = Some f →
  configparser.read_file configparser.new config_file f = Ok config →
  configparser.has_section config "train" = false →
  train_options w config_file = Raise (KeyError "train").
Proof.
  intros Hfile Hread Hkey. unfold train_options. rewrite Hfile, Hread. simpl.
  unfold configparser.getitem_section. by rewrite Hkey.
Qed.

Lemma train_options_no_file w config_file :
  config_files w !! config_file = None →
  train_options w config_file = Raise (KeyError "train").
Proof. intros Hfile. unfold train_options. by rewrite Hfile. Qed.

(** C5, as the code has it.  When the parser reads the file to its end
    without raising and then holds exactly the option [epochs = 10] in its
    [train] section and no option in DEFAULT, [read_config_file] returns the
    dictionary [{"epochs": "10"}], keys and values being strings. *)
Theorem read_config_file_epochs (w : World) (config_file : string) (f : file)
    (config : configparser.ConfigParser) (s : State) :
  config_files w !! config_file = Some f →
  configparser.read_file configparser.new config_file f = Ok config →
  configparser.getitem "train" (configparser._sections config) = Some [("epochs", "10")] →
  configparser._defaults config = [] →
  (read_config_file w config_file s).1 = Ok ({["epochs" := "10"]} : gmap string string).
Proof.
  intros Hfile Hread Htrain Hdefaults. rewrite read_config_file_run. simpl.
  unfold train_options. rewrite Hfile, Hread. simpl.
  unfold configparser.getitem_section, configparser.has_section, configparser.contains.
  rewrite Htrain. simpl.
  unfold configparser.dict, configparser.options, configparser.sectiondict.
  rewrite Htrain, Hdefaults. simpl.
  unfold configparser.getitem_option, configparser.unified, configparser.sectiondict.
  rewrite Htrain. simpl. reflexivity.
Qed.

Lemma read_config_file_epochs_witness :
  config_files sample.world !! "default.cfg" =
    Some (text (str.join_lines ["[train]"; "epochs = 10"; ""])) ∧
  configparser.read_file configparser.new "default.cfg"
      (text (str.join_lines ["[train]"; "epochs = 10"; ""])) =
    Ok (configparser.mkConfigParser [] [("train", [("epochs", "10")])]) ∧
  (read_config_file sample.world "default.cfg" logging.fresh).1 =
    Ok ({["epochs" := "10"]} : gmap string string).
Proof.
  split; [reflexivity|]. split; [reflexivity|].
  apply (read_config_file_epochs sample.world "default.cfg"
           (text (str.join_lines ["[train]"; "epochs = 10"; ""]))
           (configparser.mkConfigParser [] [("train", [("epochs", "10")])]));
    reflexivity.
Defined.

(** C5, as the specification has it, fails: a file whose [train] section holds
    exactly [epochs = 10] but that also has a DEFAULT section yields the
    options of DEFAULT as well. *)
Lemma read_config_file_adds_defaults :
  config_files sample.world !! "defaults.cfg" =
    Some (text (str.join_lines
                  ["[DEFAULT]"; "lr = 0.1"; "[train]"; "epochs = 10"; ""])) ∧
  configparser.read_file configparser.new "defaults.cfg"
      (text (str.join_lines ["[DEFAULT]"; "lr = 0.1"; "[train]"; "epochs = 10"; ""])) =
    Ok (configparser.mkConfigParser [("lr", "0.1")] [("train", [("epochs", "10")])]) ∧
  (read_config_file sample.world "defaults.cfg" logging.fresh).1 =
    Ok (<["lr" := "0.1"]> {["epochs" := "10"]} : gmap string string) ∧
  (read_config_file sample.world "defaults.cfg" logging.fresh).1 ≠
    Ok ({["epochs" := "10"]} : gmap string string).
Proof.
  split; [reflexivity|]. split; [reflexivity|]. split; [by vm_compute|].
  intros H. vm_compute in H. discriminate.
Qed.

(** C6, as the code has it.  When the parser reads the file to its end
    without raising and finds no [train] section in it, [read_config_file]
    raises [KeyError('train')]: the exception is the outcome of the call. *)
Theorem read_config_file_no_train_section (w : World) (config_file : string)
    (f : file) (config : configparser.ConfigParser) (s : State) :
  config_files w !! config_file = Some f →
  configparser.read_file configparser.new config_file f = Ok config →
  configparser.has_section config "train" = false →
  (read_config_file w config_file s).1 = Raise (KeyError "train").
Proof.
  intros Hfile Hread Hkey. rewrite read_config_file_run. simpl.
  by apply (train_options_no_section w config_file f config).
Qed.

Lemma read_config_file_no_train_section_witness :
  config_files sample.world !! "model.cfg" =
    Some (text (str.join_lines ["[model]"; "layers = 5"; ""])) ∧
  configparser.read_file configparser.new "model.cfg"
      (text (str.join_lines ["[model]"; "layers = 5"; ""])) =
    Ok (configparser.mkConfigParser [] [("model", [("layers", "5")])]) ∧
  configparser.has_section
    (configparser.mkConfigParser [] [("model", [("layers", "5")])]) "train" = false ∧
  (read_config_file sample.world "model.cfg" logging.fresh).1 = Raise (KeyError "train").
Proof.
  split; [reflexivity|]. split; [reflexivity|]. split; [reflexivity|].
  exact (read_config_file_no_train_section sample.world "model.cfg"
           (text (str.join_lines ["[model]"; "layers = 5"; ""]))
           (configparser.mkConfigParser [] [("model", [("layers", "5")])])
           logging.fresh eq_refl eq_refl eq_refl).
Defined.

(** C6, as the specification has it, fails: a file without a [train] section
    does not end in a key error when the parser cannot read it.  None of
    these three files has a line that is a [train] header; the one with the
    section [model] twice raises [DuplicateSectionError], the one that
    begins with an option raises [MissingSectionHeaderError], and the one
    with a section [model] and a line that is no option raises
    [ParsingError]. *)
Lemma read_config_file_unread_file :
  (config_files sample.unread !! "twice.cfg" =
     Some (text (str.join_lines ["[model]"; "layers = 5"; "[model]"; ""])) ∧
   Forall (λ line, configparser.header (str.strip line) ≠ Some "train")
     ["[model]"; "layers = 5"; "[model]"] ∧
   (read_config_file sample.unread "twice.cfg" logging.fresh).1 =
     Raise (DuplicateSectionError "model")) ∧
  (config_files sample.unread !! "headless.cfg" =
     Some (text (str.join_lines ["epochs = 10"; ""])) ∧
   Forall (λ line, configparser.header (str.strip line) ≠ Some "train")
     ["epochs = 10"] ∧
   (read_config_file sample.unread "headless.cfg" logging.fresh).1 =
     Raise (MissingSectionHeaderError "headless.cfg")) ∧
  (config_files sample.unread !! "junk.cfg" =
     Some (text (str.join_lines ["[model]"; "layers = 5"; "nonsense"; ""])) ∧
   Forall (λ line, configparser.header (str.strip line) ≠ Some "train")
     ["[model]"; "layers = 5"; "nonsense"] ∧
   (read_config_file sample.unread "junk.cfg" logging.fresh).1 =
     Raise (ParsingError "junk.cfg")).
Proof.
  repeat split; try (by vm_compute); repeat constructor; by vm_compute.
Qed.

(** C9.  For a path at which no file can be opened, [read_config_file] raises
    [KeyError('train')], not an error about the file: [read] skips the file
    and [config['train']] then finds no section.  The outcome is the one of
    any file that the parser reads and in which it finds no [train]
    section. *)
Theorem read_config_file_missing_file (w : World) (config_file : string) (s : State) :
  config_files w !! config_file = None →
  (read_config_file w config_file s).1 = Raise (KeyError "train") ∧
  ∀ w' config_file' f config s',
    config_files w' !! config_file' = Some f →
    configparser.read_file configparser.new config_file' f = Ok config →
    configparser.has_section config "train" = false →
    (read_config_file w' config_file' s').1 = (read_config_file w config_file s).1.
Proof.
  intros Hfile. rewrite read_config_file_run. simpl.
  rewrite (train_options_no_file _ _ Hfile). split; [done|].
  intros w' config_file' f config s' Hfile' Hread Hkey.
  rewrite read_config_file_run. simpl.
  by apply (train_options_no_section w' config_file' f config).
Qed.

Lemma read_config_file_missing_file_witness :
  config_files sample.world !! "absent.cfg" = None ∧
  (read_config_file sample.world "absent.cfg" logging.fresh).1 = Raise (KeyError "train") ∧
  ∀ w' config_file' f config s',
    config_files w' !! config_file' = Some f →
    configparser.read_file configparser.new config_file' f = Ok config →
    configparser.has_section config "train" = false →
    (read_config_file w' config_file' s').1 =
    (read_config_file sample.world "absent.cfg" logging.fresh).1.
Proof.
  split; [reflexivity|].
  exact (read_config_file_missing_file sample.world "absent.cfg" logging.fresh eq_refl).
Defined.

(** ** The entry point *)

Section MainFacts.

Variable gettempdir : string.
Variable all_raster_files : string → result (list string).
Variable build_trainset :
  list string → string → gmap string string → string → result unit.
Variable w : World.

Lemma main_no_namespace args e s :
  parse_args gettempdir args = Raise e →
  main gettempdir all_raster_files build_trainset w args s = (Raise e, s).
Proof. intros H. unfold main, bind, lift. by rewrite H. Qed.

(** [main], step by step, once the command line is parsed. *)
Lemma main_run args ns s :
  parse_args gettempdir args = Ok ns →
  main gettempdir all_raster_files build_trainset w args s =
    match train_options w (config_file ns) with
    | Raise e => (Raise e, config_read ns s)
    | Ok config =>
        match all_raster_files (rasters_dir ns) with
        | Raise e => (Raise e, listed w ns s)
        | Ok rasters =>
            match validate_rasters_band_count w rasters (listed w ns s) with
            | (Raise e, s') => (Raise e, s')
            | (Ok _, s') =>
                let built :=
                  propagated
                    (build_trainset_records w rasters (vector ns) config (temp_dir ns))
                    (extend s' [BuildTrainset rasters (vector ns) config (temp_dir ns)]) in
                match build_trainset rasters (vector ns) config (temp_dir ns) with
                | Raise e => (Raise e, built)
                | Ok _ => (Ok tt, logged logging.INFO "Done" built)
                end
            end
        end
    end.
Proof.
  intros Hparse.
  unfold main, setup_logging, call_all_raster_files, call_build_trainset.
  unfold bind at 1. unfold lift at 1. rewrite Hparse.
  unfold bind at 1. change (logging.basicConfig (loglevel ns) s)
    with (Ok tt, configured ns s).
  unfold bind at 1. rewrite read_config_file_run.
  destruct (train_options w (config_file ns)) as [config|e]; [|done].
  unfold bind at 1. rewrite debug_run.
  unfold bind at 1. unfold bind at 1. rewrite emit_run.
  unfold bind at 1. rewrite propagate_run. unfold lift at 1.
  destruct (all_raster_files (rasters_dir ns)) as [rasters|e]; [|done].
  unfold bind at 1. unfold listed, config_read.
  destruct (validate_rasters_band_count w rasters _) as [[b|e] s']; [|done].
  unfold bind at 1. unfold bind at 1. rewrite emit_run.
  unfold bind at 1. rewrite propagate_run. unfold lift at 1.
  destruct (build_trainset rasters (vector ns) config (temp_dir ns)) as [[]|e]; [|done].
  by rewrite info_run.
Qed.

Lemma trace_listed ns s :
  trace (listed w ns s) =
    trace s ++ [BasicConfig (loglevel ns);
                LogCall logging.DEBUG "read config file";
                ReadConfig (config_file ns);
                LogCall logging.DEBUG "Collect all rasters";
                ListRasters (rasters_dir ns)].
Proof.
  unfold listed, config_read, configured, logging.basicConfig. simpl.
  destruct (root_handlers s); simpl; by rewrite <- !app_assoc.
Qed.

Lemma trace_config_read ns s :
  trace (config_read ns s) =
    trace s ++ [BasicConfig (loglevel ns);
                LogCall logging.DEBUG "read config file";
                ReadConfig (config_file ns)].
Proof.
  unfold config_read, configured, logging.basicConfig. simpl.
  destruct (root_handlers s); simpl; by rewrite <- !app_assoc.
Qed.

(** Whatever the rasters are, checking them calls no collaborator and opens
    no vector file. *)
Lemma check_rasters_events rasters : ∀ s,
  ∃ r records events,
    check_rasters w rasters s = (r, extend (propagated records s) events) ∧
    builds events = 0%nat ∧ vector_opens events = 0%nat.
Proof.
  induction rasters as [|p l IH]; intros s.
  - exists (Ok tt), [], []. by rewrite propagated_nil, extend_nil.
  - simpl. destruct (raster_files w !! p) as [c|] eqn:Hp.
    + rewrite (bind_ok _ _ _ _ _ (get_raster_band_count_some _ _ _ _ Hp)).
      case_bool_decide.
      * by eexists _, _, _.
      * destruct (IH (extend (propagated (rasterio_records w p) s)
                        [OpenRaster p; CloseRaster p]))
          as (r & records & events & -> & Hb & Hv).
        eexists _, _, _.
        rewrite propagated_extend, propagated_propagated, extend_extend.
        split; [done|].
        by rewrite builds_app, vector_opens_app, Hb, Hv.
    + rewrite (bind_raise _ _ _ _ _ (get_raster_band_count_none _ _ _ Hp)).
      by eexists _, _, _.
Qed.

(** The events of the whole run when every raster has four bands. *)
Lemma main_run_all_four args ns config rasters s :
  parse_args gettempdir args = Ok ns →
  train_options w (config_file ns) = Ok config →
  all_raster_files (rasters_dir ns) = Ok rasters →
  Forall (λ p, raster_files w !! p = Some 4) rasters →
  (main gettempdir all_raster_files build_trainset w args s).1 =
    build_trainset rasters (vector ns) config (temp_dir ns) ∧
  trace (main gettempdir all_raster_files build_trainset w args s).2 =
    trace s ++
    [BasicConfig (loglevel ns);
     LogCall logging.DEBUG "read config file";
     ReadConfig (config_file ns);
     LogCall logging.DEBUG "Collect all rasters";
     ListRasters (rasters_dir ns);
     LogCall logging.DEBUG "Validate rasters band count"] ++
    opened rasters ++
    BuildTrainset rasters (vector ns) config (temp_dir ns) ::
    match build_trainset rasters (vector ns) config (temp_dir ns) with
    | Ok _ => [LogCall logging.INFO "Done"]
    | Raise _ => []
    end.
Proof.
  intros Hparse Hconfig Hlist Hall.
  rewrite (main_run _ _ _ Hparse), Hconfig, Hlist, validate_run,
    (check_rasters_all_four w _ _ Hall).
  destruct (build_trainset rasters (vector ns) config (temp_dir ns)) as [[]|e];
    (split; [done|]); cbn [snd];
    repeat (rewrite trace_logged || rewrite trace_extend || rewrite trace_propagated);
    rewrite trace_listed, <- !app_assoc; done.
Qed.

End MainFacts.

(** Whether the records reach the log is a matter of the verbosity flags:
    in a fresh process the INFO record of 'Done' is written exactly when
    [loglevel] was set, to INFO or to DEBUG. *)
Lemma done_record_needs_verbosity ns :
  logging.enabled logging.INFO (configured ns logging.fresh) =
    match loglevel ns with
    | Some level => level <=? logging.INFO
    | None => false
    end.
Proof. unfold configured. simpl. by destruct (loglevel ns). Qed.

Example quiet_run_writes_nothing :
  log_output
    (main sample.gettempdir sample.all_raster_files sample.build_trainset
       sample.world ["good"; "labels.geojson"] logging.fresh).2 = [].
Proof. by vm_compute. Qed.

Example verbose_run_writes_done :
  log_output
    (main sample.gettempdir sample.all_raster_files sample.build_trainset
       sample.world ["good"; "labels.geojson"; "-v"] logging.fresh).2 =
    [(logging.INFO, "Done")].
Proof. by vm_compute. Qed.

(** C2.  In a run of [main] whose enumerated rasters include one whose band
    count is not four, [main] ends with an exception and [build_trainset] is
    not called: the run has no more calls of it at its end than at its
    start. *)
Theorem main_aborts_before_build_trainset (gettempdir : string)
    (all_raster_files : string → result (list string))
    (build_trainset : list string → string → gmap string string → string → result unit)
    (w : World) (args : list string) (ns : Namespace) (rasters : list string)
    (p : string) (count : Z) (s : State) :
  parse_args gettempdir args = Ok ns →
  all_raster_files (rasters_dir ns) = Ok rasters →
  p ∈ rasters →
  raster_files w !! p = Some count →
  count ≠ 4 →
  (∃ e, (main gettempdir all_raster_files build_trainset w args s).1 = Raise e) ∧
  builds (trace (main gettempdir all_raster_files build_trainset w args s).2) =
    builds (trace s).
Proof.
  intros Hparse Hlist Hp Hcount Hne.
  rewrite (main_run _ _ _ _ _ _ _ Hparse).
  destruct (train_options w (config_file ns)) as [config|e].
  - rewrite Hlist, validate_run.
    assert (Exists (λ q, raster_files w !! q ≠ Some 4) rasters) as Hex.
    { apply Exists_exists. exists p. split; [done|]. rewrite Hcount. congruence. }
    destruct (check_rasters_bad w rasters
                (logged logging.DEBUG "Validate rasters band count" (listed w ns s)) Hex)
      as (e & records & events & -> & Hb & _).
    split; [by exists e|]. cbn [snd].
    rewrite trace_extend, trace_propagated, trace_logged, trace_listed, !builds_app, Hb.
    cbn. lia.
  - split; [by exists e|]. cbn [snd]. rewrite trace_config_read, builds_app. cbn. lia.
Qed.

Lemma main_aborts_before_build_trainset_witness :
  parse_args sample.gettempdir ["tiles"; "labels.geojson"] =
    Ok (mkNamespace "tiles" "labels.geojson" "default.cfg" "model.h5" None "/tmp" None) ∧
  sample.all_raster_files "tiles" = Ok sample.all_rasters ∧
  "tiles/b.tif" ∈ sample.all_rasters ∧
  raster_files sample.world !! "tiles/b.tif" = Some 3 ∧
  (∃ e, (main sample.gettempdir sample.all_raster_files sample.build_trainset
           sample.world ["tiles"; "labels.geojson"] logging.fresh).1 = Raise e) ∧
  builds (trace (main sample.gettempdir sample.all_raster_files sample.build_trainset
                   sample.world ["tiles"; "labels.geojson"] logging.fresh).2) =
    builds (trace logging.fresh).
Proof.
  assert ("tiles/b.tif" ∈ sample.all_rasters) as Hin
    by (apply list_elem_of_further, list_elem_of_here).
  split; [reflexivity|]. split; [reflexivity|]. split; [exact Hin|].
  split; [reflexivity|].
  apply (main_aborts_before_build_trainset sample.gettempdir sample.all_raster_files
           sample.build_trainset sample.world ["tiles"; "labels.geojson"]
           (mkNamespace "tiles" "labels.geojson" "default.cfg" "model.h5" None "/tmp" None)
           sample.all_rasters "tiles/b.tif" 3 logging.fresh);
    [reflexivity|reflexivity|exact Hin|reflexivity|lia].
Defined.

(** C4, as the code has it.  In a run of [main] in which [read_config_file]
    returns the [train] options and every enumerated raster has four bands,
    [build_trainset] is called exactly once, with the enumerated rasters, the
    vector path, the options read and the temporary directory.  What follows
    depends on the builder: when it returns, the last thing [main] does is to
    call [_logger.info('Done')]; when it raises, [main] ends with its
    exception and nothing is logged after the call. *)
Theorem main_builds_trainset_once (gettempdir : string)
    (all_raster_files : string → result (list string))
    (build_trainset : list string → string → gmap string string → string → result unit)
    (w : World) (args : list string) (ns : Namespace) (config : gmap string string)
    (rasters : list string) (s : State) :
  parse_args gettempdir args = Ok ns →
  (read_config_file w (config_file ns) s).1 = Ok config →
  all_raster_files (rasters_dir ns) = Ok rasters →
  Forall (λ p, raster_files w !! p = Some 4) rasters →
  builds (trace (main gettempdir all_raster_files build_trainset w args s).2) =
    S (builds (trace s)) ∧
  trace (main gettempdir all_raster_files build_trainset w args s).2 =
    trace s ++
    [BasicConfig (loglevel ns);
     LogCall logging.DEBUG "read config file";
     ReadConfig (config_file ns);
     LogCall logging.DEBUG "Collect all rasters";
     ListRasters (rasters_dir ns);
     LogCall logging.DEBUG "Validate rasters band count"] ++
    opened rasters ++
    BuildTrainset rasters (vector ns) config (temp_dir ns) ::
    match build_trainset rasters (vector ns) config (temp_dir ns) with
    | Ok _ => [LogCall logging.INFO "Done"]
    | Raise _ => []
    end ∧
  (main gettempdir all_raster_files build_trainset w args s).1 =
    build_trainset rasters (vector ns) config (temp_dir ns).
Proof.
  intros Hparse Hconfig Hlist Hall.
  rewrite read_config_file_run in Hconfig. cbn [fst] in Hconfig.
  destruct (main_run_all_four gettempdir all_raster_files build_trainset w
              args ns config rasters s Hparse Hconfig Hlist Hall) as [Hres Htrace].
  split; [|by split].
  rewrite Htrace, !builds_app, builds_opened.
  destruct (build_trainset rasters (vector ns) config (temp_dir ns)); cbn; lia.
Qed.

Lemma main_builds_trainset_once_witness :
  parse_args sample.gettempdir ["good"; "labels.geojson"; "--verbose"] =
    Ok (mkNamespace "good" "labels.geojson" "default.cfg" "model.h5" None "/tmp"
          (Some logging.INFO)) ∧
  (read_config_file sample.world "default.cfg" logging.fresh).1 =
    Ok ({["epochs" := "10"]} : gmap string string) ∧
  sample.all_raster_files "good" = Ok sample.good_rasters ∧
  Forall (λ p, raster_files sample.world !! p = Some 4) sample.good_rasters ∧
  trace (main sample.gettempdir sample.all_raster_files sample.build_trainset
           sample.world ["good"; "labels.geojson"; "--verbose"] logging.fresh).2 =
    [BasicConfig (Some logging.INFO);
     LogCall logging.DEBUG "read config file";
     ReadConfig "default.cfg";
     LogCall logging.DEBUG "Collect all rasters";
     ListRasters "good";
     LogCall logging.DEBUG "Validate rasters band count";
     OpenRaster "tiles/a.tif"; CloseRaster "tiles/a.tif";
     OpenRaster "tiles/c.tif"; CloseRaster "tiles/c.tif";
     BuildTrainset sample.good_rasters "labels.geojson" {["epochs" := "10"]} "/tmp";
     LogCall logging.INFO "Done"].
Proof.
  assert (Forall (λ p, raster_files sample.world !! p = Some 4) sample.good_rasters)
    as Hall by (repeat constructor).
  split; [reflexivity|]. split; [reflexivity|]. split; [reflexivity|].
  split; [exact Hall|].
  exact (proj1 (proj2
    (main_builds_trainset_once sample.gettempdir sample.all_raster_files
       sample.build_trainset sample.world ["good"; "labels.geojson"; "--verbose"]
       (mkNamespace "good" "labels.geojson" "default.cfg" "model.h5" None "/tmp"
          (Some logging.INFO))
       {["epochs" := "10"]} sample.good_rasters logging.fresh
       eq_refl eq_refl eq_refl Hall))).
Defined.

(** C4, as the specification has it, fails in two ways.  With valid rasters
    and a [train] section, a builder that raises is called once and no 'Done'
    follows; and a [train] section with a lone percent sign makes
    [read_config_file] raise, so that the builder is not called at all. *)
Lemma main_without_done :
  (parse_args sample.gettempdir ["good"; "labels.geojson"] =
     Ok (mkNamespace "good" "labels.geojson" "default.cfg" "model.h5" None "/tmp" None) ∧
   config_files sample.world !! "default.cfg" =
     Some (text (str.join_lines ["[train]"; "epochs = 10"; ""])) ∧
   sample.all_raster_files "good" = Ok sample.good_rasters ∧
   Forall (λ p, raster_files sample.world !! p = Some 4) sample.good_rasters ∧
   main sample.gettempdir sample.all_raster_files sample.failing_build_trainset
     sample.world ["good"; "labels.geojson"] logging.fresh =
     (Raise (CollaboratorError "build_trainset"),
      mkState true logging.WARNING []
        [BasicConfig None;
         LogCall logging.DEBUG "read config file";
         ReadConfig "default.cfg";
         LogCall logging.DEBUG "Collect all rasters";
         ListRasters "good";
         LogCall logging.DEBUG "Validate rasters band count";
         OpenRaster "tiles/a.tif"; CloseRaster "tiles/a.tif";
         OpenRaster "tiles/c.tif"; CloseRaster "tiles/c.tif";
         BuildTrainset sample.good_rasters "labels.geojson" {["epochs" := "10"]} "/tmp"])) ∧
  (parse_args sample.gettempdir ["good"; "labels.geojson"; "-c"; "percent.cfg"] =
     Ok (mkNamespace "good" "labels.geojson" "percent.cfg" "model.h5" None "/tmp" None) ∧
   config_files sample.world !! "percent.cfg" =
     Some (text (str.join_lines ["[train]"; "validation = 20%"; ""])) ∧
   sample.all_raster_files "good" = Ok sample.good_rasters ∧
   Forall (λ p, raster_files sample.world !! p = Some 4) sample.good_rasters ∧
   main sample.gettempdir sample.all_raster_files sample.build_trainset
     sample.world ["good"; "labels.geojson"; "-c"; "percent.cfg"] logging.fresh =
     (Raise (InterpolationSyntaxError "validation" "train"),
      mkState true logging.WARNING []
        [BasicConfig None;
         LogCall logging.DEBUG "read config file";
         ReadConfig "percent.cfg"])).
Proof.
  assert (Forall (λ p, raster_files sample.world !! p = Some 4) sample.good_rasters)
    as Hall by (repeat constructor).
  repeat split; try exact Hall; by vm_compute.
Qed.

(** C8, as the code has it.  [main] does not open the vector file: no run of
    it, however it ends, adds an opening of a vector file to the trace; the
    vector path is only handed to [build_trainset].  [get_vector_crs], which
    [main] does not call, opens the file once, reads its CRS and closes it,
    and the log gains what the logging level admits of the records of
    fiona. *)
Theorem main_never_opens_vector (gettempdir : string)
    (all_raster_files : string → result (list string))
    (build_trainset : list string → string → gmap string string → string → result unit)
    (w : World) (args : list string) (s : State) (vector_path crs : string) :
  vector_files w !! vector_path = Some crs →
  vector_opens (trace (main gettempdir all_raster_files build_trainset w args s).2) =
    vector_opens (trace s) ∧
  get_vector_crs w vector_path s =
    (Ok crs,
     extend (propagated (fiona_records w vector_path) s)
       [OpenVector vector_path; CloseVector vector_path]).
Proof.
  intros Hfile. split.
  - destruct (parse_args gettempdir args) as [ns|e] eqn:Hparse;
      [|by rewrite (main_no_namespace _ _ _ _ _ _ _ Hparse)].
    rewrite (main_run _ _ _ _ _ _ _ Hparse).
    destruct (train_options w (config_file ns)) as [config|e];
      [|cbn [snd]; rewrite trace_config_read, vector_opens_app; cbn; lia].
    destruct (all_raster_files (rasters_dir ns)) as [rasters|e];
      [|cbn [snd]; rewrite trace_listed, vector_opens_app; cbn; lia].
    rewrite validate_run.
    destruct (check_rasters_events w rasters
                (logged logging.DEBUG "Validate rasters band count" (listed w ns s)))
      as (r & records & events & -> & _ & Hv).
    destruct r as [[]|e]; [destruct (build_trainset _ _ _ _) as [[]|e]|]; cbn [snd];
      repeat (rewrite trace_logged || rewrite trace_extend || rewrite trace_propagated);
      rewrite trace_listed, !vector_opens_app, Hv; cbn; lia.
  - unfold get_vector_crs, bind. rewrite emit_run, propagate_run, Hfile, emit_run.
    unfold ret. by rewrite propagated_extend, extend_extend.
Qed.

Lemma main_never_opens_vector_witness :
  vector_files sample.world !! "labels.geojson" = Some "EPSG:4326" ∧
  vector_opens
    (trace (main sample.gettempdir sample.all_raster_files sample.build_trainset
              sample.world ["good"; "labels.geojson"] sample.very_verbose).2) =
    vector_opens (trace sample.very_verbose) ∧
  get_vector_crs sample.world "labels.geojson" sample.very_verbose =
    (Ok "EPSG:4326",
     mkState true logging.DEBUG
       [(logging.DEBUG, "Entering env context"); (logging.DEBUG, "Exiting env context")]
       [OpenVector "labels.geojson"; CloseVector "labels.geojson"]).
Proof.
  split; [reflexivity|].
  exact (main_never_opens_vector sample.gettempdir sample.all_raster_files
           sample.build_trainset sample.world ["good"; "labels.geojson"]
           sample.very_verbose "labels.geojson" "EPSG:4326" eq_refl).
Defined.

(** C8, as the specification has it, fails: a run over a directory with a
    raster of three bands ends at the validation, before any collaborator has
    seen the vector path, and the vector file, which exists, was never
    opened. *)
Lemma main_leaves_vector_closed :
  vector_files sample.world !! "labels.geojson" = Some "EPSG:4326" ∧
  main sample.gettempdir sample.all_raster_files sample.build_trainset
    sample.world ["tiles"; "labels.geojson"] logging.fresh =
    (Raise (RuntimeError "Rasters must have exactly 4 bands (was 3)"),
     mkState true logging.WARNING []
       [BasicConfig None;
        LogCall logging.DEBUG "read config file";
        ReadConfig "default.cfg";
        LogCall logging.DEBUG "Collect all rasters";
        ListRasters "tiles";
        LogCall logging.DEBUG "Validate rasters band count";
        OpenRaster "tiles/a.tif"; CloseRaster "tiles/a.tif";
        OpenRaster "tiles/b.tif"; CloseRaster "tiles/b.tif"]) ∧
  vector_opens
    (trace (main sample.gettempdir sample.all_raster_files sample.build_trainset
              sample.world ["tiles"; "labels.geojson"] logging.fresh).2) ≠ 1%nat.
Proof. repeat split; by vm_compute. Qed.

(** C10.  On the empty list [validate_rasters_band_count] returns [True] after
    its debug call alone, without opening a raster; and a run of [main] that
    enumerates no raster still calls [build_trainset], exactly once, with the
    empty list. *)
Theorem main_with_no_rasters (gettempdir : string)
    (all_raster_files : string → result (list string))
    (build_trainset : list string → string → gmap string string → string → result unit)
    (w : World) (args : list string) (ns : Namespace) (config : gmap string string)
    (s : State) :
  parse_args gettempdir args = Ok ns →
  (read_config_file w (config_file ns) s).1 = Ok config →
  all_raster_files (rasters_dir ns) = Ok [] →
  (validate_rasters_band_count w [] s).1 = Ok true ∧
  trace (validate_rasters_band_count w [] s).2 =
    trace s ++ [LogCall logging.DEBUG "Validate rasters band count"] ∧
  builds (trace (main gettempdir all_raster_files build_trainset w args s).2) =
    S (builds (trace s)) ∧
  trace (main gettempdir all_raster_files build_trainset w args s).2 =
    trace s ++
    [BasicConfig (loglevel ns);
     LogCall logging.DEBUG "read config file";
     ReadConfig (config_file ns);
     LogCall logging.DEBUG "Collect all rasters";
     ListRasters (rasters_dir ns);
     LogCall logging.DEBUG "Validate rasters band count";
     BuildTrainset [] (vector ns) config (temp_dir ns)] ++
    match build_trainset [] (vector ns) config (temp_dir ns) with
    | Ok _ => [LogCall logging.INFO "Done"]
    | Raise _ => []
    end.
Proof.
  intros Hparse Hconfig Hlist.
  rewrite read_config_file_run in Hconfig. cbn [fst] in Hconfig.
  destruct (main_run_all_four gettempdir all_raster_files build_trainset w
              args ns config [] s Hparse Hconfig Hlist (List.Forall_nil _)) as [_ Htrace].
  split; [done|]. split; [done|]. rewrite Htrace. split.
  - rewrite !builds_app.
    destruct (build_trainset [] (vector ns) config (temp_dir ns)); cbn; lia.
  - reflexivity.
Qed.

Lemma main_with_no_rasters_witness :
  parse_args sample.gettempdir ["empty"; "labels.geojson"] =
    Ok (mkNamespace "empty" "labels.geojson" "default.cfg" "model.h5" None "/tmp" None) ∧
  (read_config_file sample.world "default.cfg" logging.fresh).1 =
    Ok ({["epochs" := "10"]} : gmap string string) ∧
  sample.all_raster_files "empty" = Ok [] ∧
  trace (main sample.gettempdir sample.all_raster_files sample.build_trainset
           sample.world ["empty"; "labels.geojson"] logging.fresh).2 =
    [BasicConfig None;
     LogCall logging.DEBUG "read config file";
     ReadConfig "default.cfg";
     LogCall logging.DEBUG "Collect all rasters";
     ListRasters "empty";
     LogCall logging.DEBUG "Validate rasters band count";
     BuildTrainset [] "labels.geojson" {["epochs" := "10"]} "/tmp";
     LogCall logging.INFO "Done"].
Proof.
  split; [reflexivity|]. split; [reflexivity|]. split; [reflexivity|].
  exact (proj2 (proj2 (proj2
    (main_with_no_rasters sample.gettempdir sample.all_raster_files
       sample.build_trainset sample.world ["empty"; "labels.geojson"]
       (mkNamespace "empty" "labels.geojson" "default.cfg" "model.h5" None "/tmp" None)
       {["epochs" := "10"]} logging.fresh eq_refl eq_refl eq_refl)))).
Defined.

(** ** The command line *)

(** An argument string that does not begin with a dash is an operand. *)
Lemma operand_not_sep r : argparse.first_is_dash r = false → String.eqb r "--" = false.
Proof.
  intros H. destruct (String.eqb_spec r "--") as [->|]; [discriminate H|done].
Qed.

Lemma classify_operand {NS} (actions : list (argparse.Action NS)) r rest :
  argparse.first_is_dash r = false →
  argparse.classify actions (r :: rest) =
    result_bind (argparse.classify actions rest) (λ toks, Ok (argparse.Arg r :: toks)).
Proof.
  intros H. simpl. rewrite (operand_not_sep r H).
  unfold argparse._parse_optional. by rewrite H.
Qed.

(** An operand met while an option string is ahead goes to the next
    positional. *)
Lemma consume_operand {NS} (actions : list (argparse.Action NS)) r toks set rest ns ex :
  existsb argparse.is_option toks = true →
  argparse.first_is_dash r = false →
  argparse.consume actions (argparse.Arg r :: toks)
    (argparse.mkParse ns (argparse.store [] set :: rest) ex) =
  argparse.consume actions toks (argparse.mkParse (set r ns) rest ex).
Proof.
  intros Htoks Hr. cbn [argparse.consume existsb argparse.is_option orb]. rewrite Htoks.
  cbn [negb]. unfold argparse.consume_positional, argparse.take_action,
    argparse._get_values. cbn. by rewrite (operand_not_sep r Hr).
Qed.

(** Two operands after the last option string go to two positionals. *)
Lemma consume_two_operands {NS} (actions : list (argparse.Action NS)) r v set1 set2 ns :
  argparse.first_is_dash r = false →
  argparse.first_is_dash v = false →
  argparse.consume actions [argparse.Arg r; argparse.Arg v]
    (argparse.mkParse ns [argparse.store [] set1; argparse.store [] set2] []) =
  Ok (argparse.mkParse (set2 v (set1 r ns)) [] []).
Proof.
  intros Hr Hv. cbn. unfold argparse.take_action, argparse._get_values. cbn.
  rewrite (operand_not_sep r Hr). cbn.
  unfold argparse.take_action, argparse._get_values. cbn.
  by rewrite (operand_not_sep v Hv).
Qed.

Lemma consume_seed_42 toks p :
  argparse.consume parser
    (argparse.Opt (Some (argparse.store_int ["--seed"] set_seed), "--seed", None) "--seed"
       :: argparse.Arg "42" :: toks) p =
  argparse.consume parser toks
    (argparse.mkParse (set_seed 42 (argparse.namespace p)) (argparse.positionals p)
       (argparse.extras p)).
Proof. reflexivity. Qed.

Lemma consume_store_const option_strings const option_string toks p :
  argparse.consume parser
    (argparse.Opt
       (Some (argparse.store_const option_strings (set_loglevel const)), option_string, None)
       option_string :: toks) p =
  argparse.consume parser toks
    (argparse.mkParse (set_loglevel const (argparse.namespace p)) (argparse.positionals p)
       (argparse.extras p)).
Proof. reflexivity. Qed.

Lemma classify_option {NS} (actions : list (argparse.Action NS)) o t rest :
  String.eqb o "--" = false →
  argparse._parse_optional actions o = Ok (Some t) →
  argparse.classify actions (o :: rest) =
    result_bind (argparse.classify actions rest) (λ toks, Ok (argparse.Opt t o :: toks)).
Proof. intros Ho Ht. simpl. by rewrite Ho, Ht. Qed.

Lemma parse_optional_seed :
  argparse._parse_optional parser "--seed" =
    Ok (Some (Some (argparse.store_int ["--seed"] set_seed), "--seed", None)).
Proof. reflexivity. Qed.

Lemma parse_optional_verbose :
  argparse._parse_optional parser "--verbose" =
    Ok (Some (Some (argparse.store_const ["-v"; "--verbose"] (set_loglevel logging.INFO)),
              "--verbose", None)).
Proof. reflexivity. Qed.

Lemma parse_optional_very_verbose :
  argparse._parse_optional parser "--very-verbose" =
    Ok (Some (Some (argparse.store_const ["-vv"; "--very-verbose"]
                      (set_loglevel logging.DEBUG)),
              "--very-verbose", None)).
Proof. reflexivity. Qed.

Lemma positional_actions :
  argparse._get_positional_actions parser =
    [argparse.store [] set_rasters_dir; argparse.store [] set_vector].
Proof. reflexivity. Qed.

(** C7.  With the two positionals and [--seed 42 --verbose], in either order,
    [parse_args] returns a namespace whose [seed] is 42 and whose [loglevel]
    is [logging.INFO]; with [--very-verbose] in place of [--verbose] the
    [loglevel] is [logging.DEBUG]; with neither flag it is [None].  The other
    attributes hold the positionals and the defaults. *)
Theorem parse_args_seed_and_verbosity (gettempdir r v : string) :
  argparse.first_is_dash r = false →
  argparse.first_is_dash v = false →
  (parse_args gettempdir [r; v; "--seed"; "42"; "--verbose"] =
     Ok (mkNamespace r v "default.cfg" "model.h5" (Some 42) gettempdir (Some logging.INFO)) ∧
   parse_args gettempdir [r; v; "--seed"; "42"; "--very-verbose"] =
     Ok (mkNamespace r v "default.cfg" "model.h5" (Some 42) gettempdir (Some logging.DEBUG)) ∧
   parse_args gettempdir [r; v; "--seed"; "42"] =
     Ok (mkNamespace r v "default.cfg" "model.h5" (Some 42) gettempdir None)) ∧
  (parse_args gettempdir ["--seed"; "42"; "--verbose"; r; v] =
     Ok (mkNamespace r v "default.cfg" "model.h5" (Some 42) gettempdir (Some logging.INFO)) ∧
   parse_args gettempdir ["--seed"; "42"; "--very-verbose"; r; v] =
     Ok (mkNamespace r v "default.cfg" "model.h5" (Some 42) gettempdir (Some logging.DEBUG)) ∧
   parse_args gettempdir ["--seed"; "42"; r; v] =
     Ok (mkNamespace r v "default.cfg" "model.h5" (Some 42) gettempdir None)).
Proof.
  intros Hr Hv.
  repeat split; unfold parse_args, argparse.parse_args;
    repeat first
      [ rewrite (classify_operand parser _ _ Hr)
      | rewrite (classify_operand parser _ _ Hv)
      | rewrite (classify_operand parser "42" _ eq_refl)
      | rewrite (classify_option parser "--seed" _ _ eq_refl parse_optional_seed)
      | rewrite (classify_option parser "--verbose" _ _ eq_refl parse_optional_verbose)
      | rewrite (classify_option parser "--very-verbose" _ _ eq_refl
                   parse_optional_very_verbose) ];
    cbn [argparse.classify result_bind]; rewrite positional_actions;
    repeat
      (first
         [ rewrite consume_operand by first [exact Hr | exact Hv | reflexivity]
         | rewrite consume_seed_42
         | rewrite consume_store_const
         | rewrite (consume_two_operands parser _ _ _ _ _ Hr Hv) ];
       cbn [argparse.namespace argparse.positionals argparse.extras]);
    reflexivity.
Qed.

Lemma parse_args_seed_and_verbosity_witness :
  argparse.first_is_dash "tiles" = false ∧
  argparse.first_is_dash "labels.geojson" = false ∧
  parse_args "/tmp" ["tiles"; "labels.geojson"; "--seed"; "42"; "--verbose"] =
    Ok (mkNamespace "tiles" "labels.geojson" "default.cfg" "model.h5" (Some 42) "/tmp"
          (Some logging.INFO)).
Proof.
  split; [reflexivity|]. split; [reflexivity|].
  exact (proj1 (proj1
    (parse_args_seed_and_verbosity "/tmp" "tiles" "labels.geojson" eq_refl eq_refl))).
Defined.


(** * Further properties *)

(** ** The raster checks, whatever the rasters *)

Lemma check_rasters_ok_all_four w rasters s u s' :
  check_rasters w rasters s = (Ok u, s') →
  Forall (λ p, raster_files w !! p = Some 4) rasters.
Proof.
  intros Hrun.
  destruct (decide (Forall (λ p, raster_files w !! p = Some 4) rasters)) as [|Hno];
    [done|].
  apply not_Forall_Exists in Hno; [|solve_decision].
  destruct (check_rasters_bad w rasters s Hno) as (e & records & events & Hbad & _).
  congruence.
Qed.

(** The loop stops at the first raster that cannot be opened. *)
Lemma check_rasters_unreadable w pre p post s :
  Forall (λ q, raster_files w !! q = Some 4) pre →
  raster_files w !! p = None →
  check_rasters w (pre ++ p :: post) s =
    (Raise (RasterioIOError p),
     extend (propagated (flat_map (rasterio_records w) (pre ++ [p])) s)
       (opened pre ++ [OpenRaster p])).
Proof.
  intros H Hp. revert s. induction H as [|q l Hq _ IH]; intros s.
  - simpl. rewrite (bind_raise _ _ _ _ _ (get_raster_band_count_none _ _ _ Hp)).
    by rewrite app_nil_r.
  - simpl. rewrite (bind_ok _ _ _ _ _ (get_raster_band_count_some _ _ _ _ Hq)).
    simpl. rewrite IH.
    by rewrite propagated_extend, propagated_propagated, extend_extend.
Qed.

(** A list splits at its first raster that does not report four bands. *)
Lemma first_problem w rasters :
  Forall (λ p, raster_files w !! p = Some 4) rasters ∨
  ∃ pre p post,
    rasters = pre ++ p :: post ∧
    Forall (λ q, raster_files w !! q = Some 4) pre ∧
    raster_files w !! p ≠ Some 4.
Proof.
  induction rasters as [|p l IH]; [by left|].
  destruct (decide (raster_files w !! p = Some 4)) as [Hp|Hp].
  - destruct IH as [IH|(pre & q & post & -> & Hpre & Hq)].
    + left. by constructor.
    + right. exists (p :: pre), q, post. by repeat split; [constructor|..].
  - right. by exists [], p, l.
Qed.

(** X1.  [validate_rasters_band_count] returns [True] exactly when every
    raster of the list reports four bands, and it never returns [False]: any
    other list ends in an exception. *)
Theorem validate_rasters_band_count_true_iff (w : World) (rasters : list string)
    (s : State) :
  ((validate_rasters_band_count w rasters s).1 = Ok true ↔
   Forall (λ p, raster_files w !! p = Some 4) rasters) ∧
  (validate_rasters_band_count w rasters s).1 ≠ Ok false.
Proof.
  rewrite validate_run.
  destruct (check_rasters w rasters _) as [[[]|e] s'] eqn:Hrun; cbn [fst].
  - split; [|done]. split; [|done]. intros _.
    by apply (check_rasters_ok_all_four w rasters _ _ _ Hrun).
  - split; [|done]. split; [done|]. intros Hall.
    rewrite (check_rasters_all_four w _ _ Hall) in Hrun. congruence.
Qed.

(** X2.  When the first raster that does not report four bands is one that
    cannot be opened, [validate_rasters_band_count] ends with the I/O error
    of that raster, not with its own [RuntimeError]; the rasters after it are
    not opened. *)
Theorem validate_rasters_band_count_unreadable (w : World) (pre : list string)
    (p : string) (post : list string) (s : State) :
  Forall (λ q, raster_files w !! q = Some 4) pre →
  raster_files w !! p = None →
  (validate_rasters_band_count w (pre ++ p :: post) s).1 = Raise (RasterioIOError p) ∧
  trace (validate_rasters_band_count w (pre ++ p :: post) s).2 =
    trace s ++ LogCall logging.DEBUG "Validate rasters band count"
      :: opened pre ++ [OpenRaster p].
Proof.
  intros Hpre Hp.
  rewrite validate_run, (check_rasters_unreadable w _ _ _ _ Hpre Hp). cbn [fst snd].
  split; [done|]. rewrite trace_extend, trace_propagated, trace_logged.
  by rewrite <- app_assoc.
Qed.

Lemma validate_rasters_band_count_unreadable_witness :
  Forall (λ q, raster_files sample.world !! q = Some 4) ["tiles/a.tif"] ∧
  raster_files sample.world !! "tiles/lost.tif" = None ∧
  (validate_rasters_band_count sample.world
     (["tiles/a.tif"] ++ "tiles/lost.tif" :: ["tiles/b.tif"]) logging.fresh).1 =
    Raise (RasterioIOError "tiles/lost.tif") ∧
  trace (validate_rasters_band_count sample.world
           (["tiles/a.tif"] ++ "tiles/lost.tif" :: ["tiles/b.tif"]) logging.fresh).2 =
    trace logging.fresh ++ LogCall logging.DEBUG "Validate rasters band count"
      :: opened ["tiles/a.tif"] ++ [OpenRaster "tiles/lost.tif"].
Proof.
  assert (Forall (λ q, raster_files sample.world !! q = Some 4) ["tiles/a.tif"])
    as Hpre by (repeat constructor).
  split; [exact Hpre|]. split; [reflexivity|].
  exact (validate_rasters_band_count_unreadable sample.world ["tiles/a.tif"]
           "tiles/lost.tif" ["tiles/b.tif"] logging.fresh Hpre eq_refl).
Defined.

(** X3.  Whatever the list and the files, [validate_rasters_band_count] goes
    through the rasters in list order and stops at the first one that does not
    report four bands.  Every raster before that one is opened once and closed
    again before the next is opened; a raster after it is never opened; and
    the only raster that can be left without its closing is the one whose
    opening failed. *)
Theorem validate_rasters_band_count_visits_prefix (w : World) (rasters : list string)
    (s : State) :
  ∃ pre post,
    rasters = pre ++ post ∧
    Forall (λ q, raster_files w !! q = Some 4) pre ∧
    trace (validate_rasters_band_count w rasters s).2 =
      trace s ++ LogCall logging.DEBUG "Validate rasters band count"
        :: opened pre ++
           match post with
           | [] => []
           | p :: _ =>
               match raster_files w !! p with
               | Some _ => [OpenRaster p; CloseRaster p]
               | None => [OpenRaster p]
               end
           end ∧
    match post with
    | [] => True
    | p :: _ => raster_files w !! p ≠ Some 4
    end.
Proof.
  rewrite validate_run.
  destruct (first_problem w rasters) as [Hall|(pre & p & post & -> & Hpre & Hp)].
  - exists rasters, []. rewrite app_nil_r, (check_rasters_all_four w _ _ Hall).
    cbn [snd]. rewrite trace_extend, trace_propagated, trace_logged, app_nil_r.
    by rewrite <- app_assoc.
  - exists pre, (p :: post). split; [done|]. split; [done|]. split; [|done].
    destruct (raster_files w !! p) as [c|] eqn:Hc.
    + assert (c ≠ 4) as Hne by congruence.
      rewrite (check_rasters_mismatch w _ _ _ _ _ Hpre Hc Hne). cbn [snd].
      rewrite trace_extend, trace_propagated, trace_logged, opened_app. cbn.
      by rewrite <- !app_assoc.
    + rewrite (check_rasters_unreadable w _ _ _ _ Hpre Hc). cbn [snd].
      rewrite trace_extend, trace_propagated, trace_logged. by rewrite <- app_assoc.
Qed.

(** ** The entry point, whatever the outcome *)

Lemma log_output_propagated records s events :
  log_output (extend (propagated records s) events) =
    log_output s ++ List.filter (λ r, logging.enabled r.1 s) records.
Proof. reflexivity. Qed.

Lemma log_output_configured ns s : log_output (configured ns s) = log_output s.
Proof. unfold configured, logging.basicConfig. by destruct (root_handlers s). Qed.

Lemma trace_configured ns s :
  trace (configured ns s) = trace s ++ [BasicConfig (loglevel ns)].
Proof. unfold configured, logging.basicConfig. by destruct (root_handlers s). Qed.

Lemma since_app s s' events : trace s' = trace s ++ events → since s s' = events.
Proof. intros H. unfold since. by rewrite H, drop_app_length. Qed.

Lemma config_reads_app l1 l2 : config_reads (l1 ++ l2) = config_reads l1 ++ config_reads l2.
Proof. unfold config_reads. apply flat_map_app. Qed.

(** Checking rasters reads no configuration file and leaves the logging
    configuration alone. *)
Lemma check_rasters_state w rasters : ∀ s,
  ∃ r records events,
    check_rasters w rasters s = (r, extend (propagated records s) events) ∧
    config_reads events = [].
Proof.
  induction rasters as [|p l IH]; intros s.
  - exists (Ok tt), [], []. by rewrite propagated_nil, extend_nil.
  - simpl. destruct (raster_files w !! p) as [c|] eqn:Hp.
    + rewrite (bind_ok _ _ _ _ _ (get_raster_band_count_some _ _ _ _ Hp)).
      case_bool_decide.
      * by eexists _, _, _.
      * destruct (IH (extend (propagated (rasterio_records w p) s)
                        [OpenRaster p; CloseRaster p]))
          as (r & records & events & -> & Hc).
        eexists _, _, _.
        rewrite propagated_extend, propagated_propagated, extend_extend.
        split; [done|]. by rewrite config_reads_app, Hc.
    + rewrite (bind_raise _ _ _ _ _ (get_raster_band_count_none _ _ _ Hp)).
      by eexists _, _, _.
Qed.

(** The state in which a run ends, once the command line is parsed: the
    state after [setup_logging], with the records that were logged since and
    the calls that were made since; no other configuration file is read. *)
Lemma main_end_state gettempdir all_raster_files build_trainset w args ns s :
  parse_args gettempdir args = Ok ns →
  ∃ records events,
    (main gettempdir all_raster_files build_trainset w args s).2 =
      extend (propagated records (configured ns s))
        (LogCall logging.DEBUG "read config file"
           :: ReadConfig (config_file ns) :: events) ∧
    config_reads events = [].
Proof.
  intros Hparse. rewrite (main_run _ _ _ _ _ _ _ Hparse).
  destruct (train_options w (config_file ns)) as [config|e].
  2: { exists [(logging.DEBUG, "read config file")], []. cbn [snd]. unfold config_read.
       by rewrite logged_propagated, extend_extend. }
  destruct (all_raster_files (rasters_dir ns)) as [rasters|e].
  2: { eexists _, _. cbn [snd]. unfold listed, config_read.
       repeat first [ rewrite logged_propagated | rewrite propagated_extend
                    | rewrite propagated_propagated | rewrite extend_extend ].
       split; [reflexivity|]. reflexivity. }
  rewrite validate_run.
  destruct (check_rasters_state w rasters
              (logged logging.DEBUG "Validate rasters band count" (listed w ns s)))
    as (r & records & events & -> & Hc).
  destruct r as [[]|e]; [destruct (build_trainset _ _ _ _) as [[]|e]|]; cbn [snd];
    eexists _, _; unfold listed, config_read;
    repeat first [ rewrite logged_propagated | rewrite propagated_extend
                 | rewrite propagated_propagated | rewrite extend_extend ];
    (split; [reflexivity|]);
    rewrite !config_reads_app, Hc; reflexivity.
Qed.

(** X4.  [main] returns normally exactly when every step does: the command
    line parses, [read_config_file] returns the options, [all_raster_files]
    returns a list, every raster of it reports four bands, and
    [build_trainset] returns. *)
Theorem main_returns_iff (gettempdir : string)
    (all_raster_files : string → result (list string))
    (build_trainset : list string → string → gmap string string → string → result unit)
    (w : World) (args : list string) (s : State) :
  (main gettempdir all_raster_files build_trainset w args s).1 = Ok tt ↔
  ∃ ns config rasters,
    parse_args gettempdir args = Ok ns ∧
    (read_config_file w (config_file ns) s).1 = Ok config ∧
    all_raster_files (rasters_dir ns) = Ok rasters ∧
    Forall (λ p, raster_files w !! p = Some 4) rasters ∧
    build_trainset rasters (vector ns) config (temp_dir ns) = Ok tt.
Proof.
  split.
  - destruct (parse_args gettempdir args) as [ns|e] eqn:Hparse;
      [|by rewrite (main_no_namespace _ _ _ _ _ _ _ Hparse)].
    rewrite (main_run _ _ _ _ _ _ _ Hparse).
    destruct (train_options w (config_file ns)) as [config|e] eqn:Hconfig; [|done].
    destruct (all_raster_files (rasters_dir ns)) as [rasters|e] eqn:Hlist; [|done].
    rewrite validate_run.
    destruct (check_rasters w rasters _) as [[[]|e] s'] eqn:Hrun; [|done].
    destruct (build_trainset rasters (vector ns) config (temp_dir ns)) as [[]|e] eqn:Hb;
      [|done].
    intros _. exists ns, config, rasters. rewrite read_config_file_run.
    repeat split; try done. by apply (check_rasters_ok_all_four w rasters _ _ _ Hrun).
  - intros (ns & config & rasters & Hparse & Hconfig & Hlist & Hall & Hb).
    rewrite read_config_file_run in Hconfig. cbn [fst] in Hconfig.
    destruct (main_run_all_four gettempdir all_raster_files build_trainset w
                args ns config rasters s Hparse Hconfig Hlist Hall) as [-> _].
    exact Hb.
Qed.

(** X5.  [main] makes no use of [--seed] and [--output-model]: two command
    lines whose namespaces agree on the other attributes give the same run,
    with the same outcome, the same calls and the same log. *)
Theorem main_ignores_seed_and_output_model (gettempdir : string)
    (all_raster_files : string → result (list string))
    (build_trainset : list string → string → gmap string string → string → result unit)
    (w : World) (args1 args2 : list string) (ns1 ns2 : Namespace) (s : State) :
  parse_args gettempdir args1 = Ok ns1 →
  parse_args gettempdir args2 = Ok ns2 →
  rasters_dir ns1 = rasters_dir ns2 →
  vector ns1 = vector ns2 →
  config_file ns1 = config_file ns2 →
  temp_dir ns1 = temp_dir ns2 →
  loglevel ns1 = loglevel ns2 →
  main gettempdir all_raster_files build_trainset w args1 s =
  main gettempdir all_raster_files build_trainset w args2 s.
Proof.
  intros H1 H2 Hr Hv Hc Ht Hl.
  rewrite (main_run _ _ _ _ _ _ _ H1), (main_run _ _ _ _ _ _ _ H2).
  unfold listed, config_read, configured. by rewrite Hr, Hv, Hc, Ht, Hl.
Qed.

Lemma main_ignores_seed_and_output_model_witness :
  parse_args sample.gettempdir ["good"; "labels.geojson"; "--seed"; "7"; "-o"; "m.h5"] =
    Ok (mkNamespace "good" "labels.geojson" "default.cfg" "m.h5" (Some 7) "/tmp" None) ∧
  parse_args sample.gettempdir ["good"; "labels.geojson"] =
    Ok (mkNamespace "good" "labels.geojson" "default.cfg" "model.h5" None "/tmp" None) ∧
  main sample.gettempdir sample.all_raster_files sample.build_trainset sample.world
    ["good"; "labels.geojson"; "--seed"; "7"; "-o"; "m.h5"] logging.fresh =
  main sample.gettempdir sample.all_raster_files sample.build_trainset sample.world
    ["good"; "labels.geojson"] logging.fresh.
Proof.
  split; [reflexivity|]. split; [reflexivity|].
  exact (main_ignores_seed_and_output_model sample.gettempdir sample.all_raster_files
           sample.build_trainset sample.world
           ["good"; "labels.geojson"; "--seed"; "7"; "-o"; "m.h5"]
           ["good"; "labels.geojson"]
           (mkNamespace "good" "labels.geojson" "default.cfg" "m.h5" (Some 7) "/tmp" None)
           (mkNamespace "good" "labels.geojson" "default.cfg" "model.h5" None "/tmp" None)
           logging.fresh eq_refl eq_refl eq_refl eq_refl eq_refl eq_refl eq_refl).
Defined.

(** X6.  The configuration is read before the raster directory is looked at:
    when [read_config_file] raises, [main] ends with that exception after the
    reading alone; [all_raster_files] is not called, no raster is opened and
    [build_trainset] is not called, whatever the directory holds. *)
Theorem main_stops_at_config_error (gettempdir : string)
    (all_raster_files : string → result (list string))
    (build_trainset : list string → string → gmap string string → string → result unit)
    (w : World) (args : list string) (ns : Namespace) (e : exception) (s : State) :
  parse_args gettempdir args = Ok ns →
  (read_config_file w (config_file ns) s).1 = Raise e →
  (main gettempdir all_raster_files build_trainset w args s).1 = Raise e ∧
  trace (main gettempdir all_raster_files build_trainset w args s).2 =
    trace s ++ [BasicConfig (loglevel ns);
                LogCall logging.DEBUG "read config file";
                ReadConfig (config_file ns)].
Proof.
  intros Hparse Hconfig. rewrite read_config_file_run in Hconfig. cbn [fst] in Hconfig.
  rewrite (main_run _ _ _ _ _ _ _ Hparse), Hconfig. cbn [fst snd].
  split; [done|]. apply trace_config_read.
Qed.

Lemma main_stops_at_config_error_witness :
  parse_args sample.gettempdir ["tiles"; "labels.geojson"; "-c"; "model.cfg"] =
    Ok (mkNamespace "tiles" "labels.geojson" "model.cfg" "model.h5" None "/tmp" None) ∧
  (read_config_file sample.world "model.cfg" logging.fresh).1 = Raise (KeyError "train") ∧
  (main sample.gettempdir sample.all_raster_files sample.build_trainset sample.world
     ["tiles"; "labels.geojson"; "-c"; "model.cfg"] logging.fresh).1 =
    Raise (KeyError "train") ∧
  trace (main sample.gettempdir sample.all_raster_files sample.build_trainset sample.world
           ["tiles"; "labels.geojson"; "-c"; "model.cfg"] logging.fresh).2 =
    trace logging.fresh ++ [BasicConfig None;
                            LogCall logging.DEBUG "read config file";
                            ReadConfig "model.cfg"].
Proof.
  split; [reflexivity|]. split; [reflexivity|].
  exact (main_stops_at_config_error sample.gettempdir sample.all_raster_files
           sample.build_trainset sample.world
           ["tiles"; "labels.geojson"; "-c"; "model.cfg"]
           (mkNamespace "tiles" "labels.geojson" "model.cfg" "model.h5" None "/tmp" None)
           (KeyError "train") logging.fresh eq_refl eq_refl).
Defined.

(** X7.  [main] touches the logging configuration only through
    [setup_logging]: after a run the root logger has a handler as soon as the
    command line parsed, and its level changed only if it had no handler
    before and a verbosity flag was given.  In a process whose logging is
    already configured the flags of [main] change nothing. *)
Theorem main_logging_configuration (gettempdir : string)
    (all_raster_files : string → result (list string))
    (build_trainset : list string → string → gmap string string → string → result unit)
    (w : World) (args : list string) (s : State) :
  root_handlers (main gettempdir all_raster_files build_trainset w args s).2 =
    match parse_args gettempdir args with
    | Ok _ => true
    | Raise _ => root_handlers s
    end ∧
  root_level (main gettempdir all_raster_files build_trainset w args s).2 =
    match parse_args gettempdir args with
    | Ok ns => if root_handlers s then root_level s else default (root_level s) (loglevel ns)
    | Raise _ => root_level s
    end.
Proof.
  destruct (parse_args gettempdir args) as [ns|e] eqn:Hparse;
    [|by rewrite (main_no_namespace _ _ _ _ _ _ _ Hparse)].
  destruct (main_end_state gettempdir all_raster_files build_trainset w args ns s Hparse)
    as (records & events & -> & _).
  unfold configured, logging.basicConfig. by destruct (root_handlers s).
Qed.

(** X8.  [main] reads one configuration file, the one that the namespace
    names, whatever happens afterwards; when the command line does not parse
    it reads none. *)
Theorem main_reads_one_config_file (gettempdir : string)
    (all_raster_files : string → result (list string))
    (build_trainset : list string → string → gmap string string → string → result unit)
    (w : World) (args : list string) (s : State) :
  config_reads
    (since s (main gettempdir all_raster_files build_trainset w args s).2) =
    match parse_args gettempdir args with
    | Ok ns => [config_file ns]
    | Raise _ => []
    end.
Proof.
  destruct (parse_args gettempdir args) as [ns|e] eqn:Hparse.
  - destruct (main_end_state gettempdir all_raster_files build_trainset w args ns s Hparse)
      as (records & events & -> & Hc).
    rewrite (since_app _ _
               (BasicConfig (loglevel ns) :: LogCall logging.DEBUG "read config file"
                  :: ReadConfig (config_file ns) :: events)).
    + unfold config_reads in *. cbn [flat_map app]. by rewrite Hc.
    + rewrite trace_extend, trace_propagated, trace_configured. by rewrite <- app_assoc.
  - rewrite (main_no_namespace _ _ _ _ _ _ _ Hparse). cbn [snd].
    by rewrite (since_app s s [] (eq_sym (app_nil_r _))).
Qed.

(** X9.  A run that goes through to the end adds to the log what the level
    after [setup_logging] admits of these records, in this order, and nothing
    else: its own records of reading the configuration and of collecting the
    rasters, the records of [all_raster_files], its record of validating,
    the records of rasterio for each raster in turn, the records of
    [build_trainset], and its record 'Done'. *)
Theorem main_log_of_full_run (gettempdir : string)
    (all_raster_files : string → result (list string))
    (build_trainset : list string → string → gmap string string → string → result unit)
    (w : World) (args : list string) (ns : Namespace) (config : gmap string string)
    (rasters : list string) (s : State) :
  parse_args gettempdir args = Ok ns →
  (read_config_file w (config_file ns) s).1 = Ok config →
  all_raster_files (rasters_dir ns) = Ok rasters →
  Forall (λ p, raster_files w !! p = Some 4) rasters →
  build_trainset rasters (vector ns) config (temp_dir ns) = Ok tt →
  log_output (main gettempdir all_raster_files build_trainset w args s).2 =
    log_output s ++
    List.filter (λ r, logging.enabled r.1 (setup_logging (loglevel ns) s).2)
      ([(logging.DEBUG, "read config file");
        (logging.DEBUG, "Collect all rasters")] ++
       all_raster_files_records w (rasters_dir ns) ++
       [(logging.DEBUG, "Validate rasters band count")] ++
       flat_map (rasterio_records w) rasters ++
       build_trainset_records w rasters (vector ns) config (temp_dir ns) ++
       [(logging.INFO, "Done")]).
Proof.
  intros Hparse Hconfig Hlist Hall Hb.
  rewrite read_config_file_run in Hconfig. cbn [fst] in Hconfig.
  rewrite (main_run _ _ _ _ _ _ _ Hparse), Hconfig, Hlist, validate_run,
    (check_rasters_all_four w _ _ Hall), Hb.
  cbn [snd]. unfold listed, config_read.
  repeat first [ rewrite logged_propagated | rewrite propagated_extend
               | rewrite propagated_propagated | rewrite extend_extend ].
  rewrite log_output_propagated, log_output_configured.
  change (setup_logging (loglevel ns) s).2 with (configured ns s).
  reflexivity.
Qed.

Lemma main_log_of_full_run_witness :
  parse_args sample.gettempdir ["good"; "labels.geojson"; "-vv"] =
    Ok (mkNamespace "good" "labels.geojson" "default.cfg" "model.h5" None "/tmp"
          (Some logging.DEBUG)) ∧
  (read_config_file sample.world "default.cfg" logging.fresh).1 =
    Ok ({["epochs" := "10"]} : gmap string string) ∧
  sample.all_raster_files "good" = Ok sample.good_rasters ∧
  Forall (λ p, raster_files sample.world !! p = Some 4) sample.good_rasters ∧
  log_output
    (main sample.gettempdir sample.all_raster_files sample.build_trainset sample.world
       ["good"; "labels.geojson"; "-vv"] logging.fresh).2 =
    [(logging.DEBUG, "read config file");
     (logging.DEBUG, "Collect all rasters");
     (logging.DEBUG, "Validate rasters band count");
     (logging.DEBUG, "Entering env context"); (logging.DEBUG, "Exiting env context");
     (logging.DEBUG, "Entering env context"); (logging.DEBUG, "Exiting env context");
     (logging.INFO, "Done")].
Proof.
  assert (Forall (λ p, raster_files sample.world !! p = Some 4) sample.good_rasters)
    as Hall by (repeat constructor).
  split; [reflexivity|]. split; [reflexivity|]. split; [reflexivity|].
  split; [exact Hall|].
  exact (main_log_of_full_run sample.gettempdir sample.all_raster_files
           sample.build_trainset sample.world ["good"; "labels.geojson"; "-vv"]
           (mkNamespace "good" "labels.geojson" "default.cfg" "model.h5" None "/tmp"
              (Some logging.DEBUG))
           {["epochs" := "10"]} sample.good_rasters logging.fresh
           eq_refl eq_refl eq_refl Hall eq_refl).
Defined.

(** X10.  In a fresh process a command line without verbosity flag leaves
    the root logger at WARNING, and no record below WARNING is written,
    whether the run goes through or fails, and at whichever step it fails:
    none of the records of [main], which are at DEBUG and INFO, and of the
    records of rasterio and of the collaborators only warnings and
    errors. *)
Theorem main_quiet_without_flag (gettempdir : string)
    (all_raster_files : string → result (list string))
    (build_trainset : list string → string → gmap string string → string → result unit)
    (w : World) (args : list string) :
  match parse_args gettempdir args with
  | Ok ns => loglevel ns = None
  | Raise _ => True
  end →
  root_level (main gettempdir all_raster_files build_trainset w args logging.fresh).2 =
    logging.WARNING ∧
  Forall (λ r : record, logging.WARNING ≤ r.1)
    (log_output
       (main gettempdir all_raster_files build_trainset w args logging.fresh).2).
Proof.
  destruct (parse_args gettempdir args) as [ns|e] eqn:Hparse; intros Hnone.
  - destruct (main_end_state gettempdir all_raster_files build_trainset w args ns
                logging.fresh Hparse) as (records & events & -> & _).
    assert (configured ns logging.fresh =
              mkState true logging.WARNING [] [BasicConfig None]) as Hcfg
      by (unfold configured; by rewrite Hnone).
    rewrite log_output_propagated, Hcfg. split; [done|]. cbn [log_output app].
    induction records as [|r records IH]; [by constructor|].
    cbn [List.filter]. destruct (logging.enabled r.1 _) eqn:He; [|exact IH].
    constructor; [|exact IH].
    unfold logging.enabled in He. cbn in He. by apply Z.leb_le.
  - rewrite (main_no_namespace _ _ _ _ _ _ _ Hparse). cbn. by split.
Qed.

Lemma main_quiet_without_flag_witness :
  match parse_args sample.gettempdir ["tiles"; "labels.geojson"] with
  | Ok ns => loglevel ns = None
  | Raise _ => True
  end ∧
  root_level
    (main sample.gettempdir sample.all_raster_files sample.build_trainset sample.world
       ["tiles"; "labels.geojson"] logging.fresh).2 = logging.WARNING ∧
  Forall (λ r : record, logging.WARNING ≤ r.1)
    (log_output
       (main sample.gettempdir sample.all_raster_files sample.build_trainset sample.world
          ["tiles"; "labels.geojson"] logging.fresh).2).
Proof.
  assert (match parse_args sample.gettempdir ["tiles"; "labels.geojson"] with
          | Ok ns => loglevel ns = None
          | Raise _ => True
          end) as H by reflexivity.
  split; [exact H|].
  exact (main_quiet_without_flag sample.gettempdir sample.all_raster_files
           sample.build_trainset sample.world ["tiles"; "labels.geojson"] H).
Defined.

(** ** The command line, in general *)

Lemma classify_operands {NS} (actions : list (argparse.Action NS)) args :
  Forall (λ a, argparse.first_is_dash a = false) args →
  argparse.classify actions args = Ok (argparse.Arg <$> args).
Proof.
  induction 1 as [|a l Ha _ IH]; [done|].
  by rewrite (classify_operand actions a l Ha), IH.
Qed.

Lemma no_option_among_operands {NS} (actions : list (argparse.Action NS)) args :
  existsb argparse.is_option (argparse.Arg (NS := NS) <$> args) = false.
Proof. by induction args. Qed.

Lemma consume_no_option {NS} (actions : list (argparse.Action NS)) toks p :
  existsb argparse.is_option toks = false →
  argparse.consume actions toks p = argparse.consume_tail toks p.
Proof. intros H. destruct toks; simpl; [done|]. simpl in H. by rewrite H. Qed.

(** A command line of operands alone. *)
Lemma parse_args_operands gettempdir args :
  Forall (λ a, argparse.first_is_dash a = false) args →
  parse_args gettempdir args =
    match args with
    | [r; v] => Ok (mkNamespace r v "default.cfg" "model.h5" None gettempdir None)
    | _ => Raise (SystemExit 2)
    end.
Proof.
  intros Hall. unfold parse_args, argparse.parse_args.
  rewrite (classify_operands parser args Hall). cbn [result_bind].
  rewrite (consume_no_option parser _ _ (no_option_among_operands parser args)).
  rewrite positional_actions.
  destruct args as [|a [|b [|c rest]]]; [done| | |].
  - apply Forall_cons in Hall as [Ha _].
    unfold argparse.consume_tail. cbn.
    unfold argparse.take_action, argparse._get_values. cbn.
    by rewrite (operand_not_sep a Ha).
  - apply Forall_cons in Hall as [Ha Hall]. apply Forall_cons in Hall as [Hb _].
    unfold argparse.consume_tail. cbn.
    unfold argparse.take_action, argparse._get_values. cbn.
    rewrite (operand_not_sep a Ha). cbn.
    unfold argparse.take_action, argparse._get_values. cbn.
    by rewrite (operand_not_sep b Hb).
  - apply Forall_cons in Hall as [Ha Hall]. apply Forall_cons in Hall as [Hb _].
    unfold argparse.consume_tail. cbn.
    unfold argparse.take_action, argparse._get_values. cbn.
    rewrite (operand_not_sep a Ha). cbn.
    unfold argparse.take_action, argparse._get_values. cbn.
    by rewrite (operand_not_sep b Hb).
Qed.

(** X11.  On a command line of operands alone (no string begins with a
    dash) [parse_args] returns a namespace exactly when there are two of
    them: the two are [rasters_dir] and [vector], in this order, and the
    other attributes have their defaults.  With fewer or more operands it
    leaves with exit status 2. *)
Theorem parse_args_two_operands (gettempdir : string) (args : list string) :
  Forall (λ a, argparse.first_is_dash a = false) args →
  (∀ r v, args = [r; v] →
     parse_args gettempdir args =
       Ok (mkNamespace r v "default.cfg" "model.h5" None gettempdir None)) ∧
  (length args ≠ 2%nat → parse_args gettempdir args = Raise (SystemExit 2)).
Proof.
  intros Hall. rewrite (parse_args_operands gettempdir args Hall). split.
  - by intros r v ->.
  - by destruct args as [|a [|b [|c rest]]].
Qed.

Lemma parse_args_two_operands_witness :
  Forall (λ a, argparse.first_is_dash a = false) ["tiles"; "labels.geojson"] ∧
  parse_args "/tmp" ["tiles"; "labels.geojson"] =
    Ok (mkNamespace "tiles" "labels.geojson" "default.cfg" "model.h5" None "/tmp" None).
Proof.
  assert (Forall (λ a, argparse.first_is_dash a = false) ["tiles"; "labels.geojson"])
    as Hall by (repeat constructor).
  split; [exact Hall|].
  exact (proj1 (parse_args_two_operands "/tmp" ["tiles"; "labels.geojson"] Hall)
           "tiles" "labels.geojson" eq_refl).
Defined.

(** X12.  [run] hands [main] the command line without the program name.
    When what follows the name is operands alone, and not two of them, the
    script leaves with exit status 2 before anything else happens: logging
    is not configured, nothing is logged, no file is read and no
    collaborator is called. *)
Theorem run_usage_error (gettempdir : string)
    (all_raster_files : string → result (list string))
    (build_trainset : list string → string → gmap string string → string → result unit)
    (w : World) (sys_argv : list string) (s : State) :
  Forall (λ a, argparse.first_is_dash a = false) (drop 1 sys_argv) →
  length sys_argv ≠ 3%nat →
  run gettempdir all_raster_files build_trainset w sys_argv s =
    (Raise (SystemExit 2), s).
Proof.
  intros Hall Hlen. unfold run. apply main_no_namespace.
  rewrite (parse_args_operands gettempdir _ Hall).
  destruct sys_argv as [|prog [|a [|b [|c rest]]]]; try done.
Qed.

Lemma run_usage_error_witness :
  Forall (λ a, argparse.first_is_dash a = false) (drop 1 ["train"; "tiles"]) ∧
  length ["train"; "tiles"] ≠ 3%nat ∧
  run sample.gettempdir sample.all_raster_files sample.build_trainset sample.world
    ["train"; "tiles"] logging.fresh = (Raise (SystemExit 2), logging.fresh).
Proof.
  assert (Forall (λ a, argparse.first_is_dash a = false) (drop 1 ["train"; "tiles"]))
    as Hall by (repeat constructor).
  assert (length ["train"; "tiles"] ≠ 3%nat) as Hlen by (simpl; lia).
  split; [exact Hall|]. split; [exact Hlen|].
  exact (run_usage_error sample.gettempdir sample.all_raster_files
           sample.build_trainset sample.world ["train"; "tiles"] logging.fresh Hall Hlen).
Defined.

(** Classifying the command line fails only as a usage error. *)
Lemma classify_error {NS} (actions : list (argparse.Action NS)) args e :
  argparse.classify actions args = Raise e → e = SystemExit 2.
Proof.
  induction args as [|a l IH]; [done|]. simpl.
  destruct (String.eqb a "--"); [done|].
  destruct (argparse._parse_optional actions a) as [t|e'] eqn:Ht.
  - simpl. destruct (argparse.classify actions l); [done|].
    simpl. intros [= <-]. by apply IH.
  - simpl. intros [= <-]. revert Ht. unfold argparse._parse_optional.
    repeat case_match; try done; by intros [= <-].
Qed.

Lemma consume_exit option_strings flag toks p :
  argparse.consume parser
    (argparse.Opt
       (Some (argparse.mkAction option_strings 0 (λ _ _, argparse.exit)), flag, None)
       flag :: toks) p =
  Raise (SystemExit 0).
Proof. reflexivity. Qed.

(** X13.  When the command line begins with [--version], [-h] or [--help],
    [main] does nothing but leave: it raises [SystemExit] in the state in
    which it was called, so that logging is not configured and nothing is
    read, even though the positionals are missing.  The exit status is 0,
    unless a later string is an ambiguous abbreviation, which is reported
    first, with status 2; it is 0 in particular when only operands follow. *)
Theorem main_version_or_help (gettempdir : string)
    (all_raster_files : string → result (list string))
    (build_trainset : list string → string → gmap string string → string → result unit)
    (w : World) (flag : string) (rest : list string) (s : State) :
  flag = "--version" ∨ flag = "-h" ∨ flag = "--help" →
  (∃ status, (status = 0 ∨ status = 2) ∧
     main gettempdir all_raster_files build_trainset w (flag :: rest) s =
       (Raise (SystemExit status), s)) ∧
  (Forall (λ a, argparse.first_is_dash a = false) rest →
     main gettempdir all_raster_files build_trainset w (flag :: rest) s =
       (Raise (SystemExit 0), s)).
Proof.
  intros Hflag.
  assert (parse_args gettempdir (flag :: rest) =
            match argparse.classify parser rest with
            | Ok _ => Raise (SystemExit 0)
            | Raise e => Raise e
            end) as Hparse.
  { unfold parse_args, argparse.parse_args.
    destruct Hflag as [->|[->| ->]].
    - rewrite (classify_option parser "--version" _ rest eq_refl eq_refl).
      destruct (argparse.classify parser rest); [|done]. cbn [result_bind].
      unfold argparse.version. by rewrite consume_exit.
    - rewrite (classify_option parser "-h" _ rest eq_refl eq_refl).
      destruct (argparse.classify parser rest); [|done]. cbn [result_bind].
      unfold argparse.help. by rewrite consume_exit.
    - rewrite (classify_option parser "--help" _ rest eq_refl eq_refl).
      destruct (argparse.classify parser rest); [|done]. cbn [result_bind].
      unfold argparse.help. by rewrite consume_exit. }
  split.
  - destruct (argparse.classify parser rest) as [toks|e] eqn:Hc.
    + exists 0. split; [by left|]. by apply main_no_namespace.
    + exists 2. split; [by right|]. apply main_no_namespace.
      by rewrite Hparse, (classify_error parser rest e Hc).
  - intros Hall. apply main_no_namespace.
    by rewrite Hparse, (classify_operands parser rest Hall).
Qed.

Lemma main_version_or_help_witness :
  ("--version" = "--version" ∨ "--version" = "-h" ∨ "--version" = "--help") ∧
  main sample.gettempdir sample.all_raster_files sample.build_trainset sample.world
    ["--version"; "tiles"] logging.fresh = (Raise (SystemExit 0), logging.fresh).
Proof.
  assert (Forall (λ a, argparse.first_is_dash a = false) ["tiles"])
    as Hall by (repeat constructor).
  split; [by left|].
  exact (proj2 (main_version_or_help sample.gettempdir sample.all_raster_files
                  sample.build_trainset sample.world "--version" ["tiles"]
                  logging.fresh (or_introl eq_refl)) Hall).
Defined.

(** What a verbosity flag is classified as. *)
Lemma parse_optional_flag flag level :
  flag_level flag = Some level →
  String.eqb flag "--" = false ∧
  ∃ option_strings,
    argparse._parse_optional parser flag =
      Ok (Some (Some (argparse.store_const option_strings (set_loglevel level)),
                flag, None)).
Proof.
  unfold flag_level.
  destruct (String.eqb_spec flag "-v") as [->|_];
    [intros [= <-]; split; [done|]; by eexists|].
  destruct (String.eqb_spec flag "--verbose") as [->|_];
    [intros [= <-]; split; [done|]; by eexists|].
  destruct (String.eqb_spec flag "-vv") as [->|_];
    [intros [= <-]; split; [done|]; by eexists|].
  destruct (String.eqb_spec flag "--very-verbose") as [->|_];
    [intros [= <-]; split; [done|]; by eexists|].
  done.
Qed.

(** The pattern of a run of verbosity flags. *)
Lemma classify_flags flags :
  Forall (λ f, is_Some (flag_level f)) flags →
  ∃ toks,
    argparse.classify parser flags = Ok toks ∧
    Forall2 (λ f tok, ∃ option_strings level,
               flag_level f = Some level ∧
               tok = argparse.Opt
                       (Some (argparse.store_const option_strings (set_loglevel level)),
                        f, None) f) flags toks.
Proof.
  induction 1 as [|f l [level Hf] _ (toks & IH & Htoks)]; [by exists []|].
  destruct (parse_optional_flag f level Hf) as (Hsep & os & Ht).
  eexists. rewrite (classify_option parser f _ l Hsep Ht), IH. cbn [result_bind].
  split; [done|]. constructor; [by exists os, level|done].
Qed.

Lemma last_flag_level flags :
  Forall (λ f, is_Some (flag_level f)) flags →
  flags ≠ [] →
  is_Some (last flags ≫= flag_level).
Proof.
  induction 1 as [|f [|f' fs] Hf Hfs IH]; intros Hne; [done|exact Hf|].
  change (last (f :: f' :: fs)) with (last (f' :: fs)). by apply IH.
Qed.

Lemma consume_flags flags toks : ∀ ns,
  Forall2 (λ f tok, ∃ option_strings level,
             flag_level f = Some level ∧
             tok = argparse.Opt
                     (Some (argparse.store_const option_strings (set_loglevel level)),
                      f, None) f) flags toks →
  argparse.consume parser toks (argparse.mkParse ns [] []) =
    Ok (argparse.mkParse
          match last flags ≫= flag_level with
          | Some level => set_loglevel level ns
          | None => ns
          end [] []).
Proof.
  intros ns H. revert ns.
  induction H as [|f tok fs toks (os & level & Hf & ->) Hrest IH]; intros ns; [done|].
  rewrite consume_store_const. cbn [argparse.namespace argparse.positionals argparse.extras].
  rewrite IH. destruct fs as [|f' fs'].
  - cbn. by rewrite Hf.
  - change (last (f :: f' :: fs')) with (last (f' :: fs')).
    destruct (last_flag_level (f' :: fs')) as [level' ->]; [|done|done].
    apply Forall_forall. intros g Hg.
    apply list_elem_of_lookup in Hg as [i Hi].
    destruct (Forall2_lookup_l _ _ _ _ _ Hrest Hi) as (tok & _ & _ & level'' & -> & _).
    by eexists.
Qed.

(** X14.  The two verbosity flags, in any of their spellings, store into the
    same attribute, and the last one given wins: after the two positionals
    and any number of [-v], [--verbose], [-vv] and [--very-verbose],
    [loglevel] is the level of the last flag, and [None] when there is none. *)
Theorem parse_args_last_verbosity_flag (gettempdir r v : string) (flags : list string) :
  argparse.first_is_dash r = false →
  argparse.first_is_dash v = false →
  Forall (λ f, is_Some (flag_level f)) flags →
  parse_args gettempdir (r :: v :: flags) =
    Ok (mkNamespace r v "default.cfg" "model.h5" None gettempdir
          (last flags ≫= flag_level)).
Proof.
  intros Hr Hv Hflags. unfold parse_args, argparse.parse_args.
  rewrite (classify_operand parser r _ Hr), (classify_operand parser v _ Hv).
  destruct (classify_flags flags Hflags) as (toks & -> & Htoks).
  cbn [result_bind]. rewrite positional_actions.
  destruct flags as [|f fs].
  - inversion Htoks; subst. by rewrite (consume_two_operands parser _ _ _ _ _ Hr Hv).
  - assert (existsb argparse.is_option toks = true) as Hopt.
    { inversion Htoks as [|? tok ? ? (os & level & _ & Htok)]; subst. done. }
    rewrite !consume_operand by first [exact Hr | exact Hv | exact Hopt].
    rewrite (consume_flags _ _ _ Htoks).
    cbn [result_bind argparse.positionals argparse.extras argparse.namespace].
    by destruct (last (f :: fs) ≫= flag_level).
Qed.

Lemma parse_args_last_verbosity_flag_witness :
  argparse.first_is_dash "tiles" = false ∧
  argparse.first_is_dash "labels.geojson" = false ∧
  Forall (λ f, is_Some (flag_level f)) ["-vv"; "--verbose"; "-v"; "--very-verbose"] ∧
  parse_args "/tmp"
    ("tiles" :: "labels.geojson" :: ["-vv"; "--verbose"; "-v"; "--very-verbose"]) =
    Ok (mkNamespace "tiles" "labels.geojson" "default.cfg" "model.h5" None "/tmp"
          (last ["-vv"; "--verbose"; "-v"; "--very-verbose"] ≫= flag_level)).
Proof.
  assert (Forall (λ f, is_Some (flag_level f))
            ["-vv"; "--verbose"; "-v"; "--very-verbose"]) as Hflags
    by (repeat constructor; by eexists).
  split; [reflexivity|]. split; [reflexivity|]. split; [exact Hflags|].
  exact (parse_args_last_verbosity_flag "/tmp" "tiles" "labels.geojson"
           ["-vv"; "--verbose"; "-v"; "--very-verbose"] eq_refl eq_refl Hflags).
Defined.

(** An option that takes a value, followed by an argument. *)
Lemma consume_store_value option_strings set option_string x toks p :
  String.eqb x "--" = false →
  argparse.consume parser
    (argparse.Opt (Some (argparse.store option_strings set), option_string, None)
       option_string :: argparse.Arg x :: toks) p =
  argparse.consume parser toks
    (argparse.mkParse (set x (argparse.namespace p)) (argparse.positionals p)
       (argparse.extras p)).
Proof.
  intros Hx. cbn. unfold argparse.take_action, argparse._get_values. cbn.
  by rewrite Hx.
Qed.

Lemma consume_seed_value x toks p :
  String.eqb x "--" = false →
  argparse.consume parser
    (argparse.Opt (Some (argparse.store_int ["--seed"] set_seed), "--seed", None) "--seed"
       :: argparse.Arg x :: toks) p =
  match builtins.int x with
  | Some n =>
      argparse.consume parser toks
        (argparse.mkParse (set_seed n (argparse.namespace p)) (argparse.positionals p)
           (argparse.extras p))
  | None => Raise (SystemExit 2)
  end.
Proof.
  intros Hx. cbn -[builtins.int]. unfold argparse.take_action, argparse._get_values.
  cbn -[builtins.int]. rewrite Hx. cbn -[builtins.int].
  by destruct (builtins.int x).
Qed.

Lemma consume_nothing ns :
  argparse.consume parser [] (argparse.mkParse ns [] []) = Ok (argparse.mkParse ns [] []).
Proof. reflexivity. Qed.

(** X15.  The options that take a value store the string that follows them
    as it is: after the two positionals, [-c] and [--config-file] set
    [config_file], [-o] and [--output-model] set [output_model], and
    [--temp-dir] sets [temp_dir], to any string that does not begin with a
    dash; the other attributes keep their defaults. *)
Theorem parse_args_value_options (gettempdir r v x : string) :
  argparse.first_is_dash r = false →
  argparse.first_is_dash v = false →
  argparse.first_is_dash x = false →
  parse_args gettempdir [r; v; "-c"; x] =
    Ok (mkNamespace r v x "model.h5" None gettempdir None) ∧
  parse_args gettempdir [r; v; "--config-file"; x] =
    Ok (mkNamespace r v x "model.h5" None gettempdir None) ∧
  parse_args gettempdir [r; v; "-o"; x] =
    Ok (mkNamespace r v "default.cfg" x None gettempdir None) ∧
  parse_args gettempdir [r; v; "--output-model"; x] =
    Ok (mkNamespace r v "default.cfg" x None gettempdir None) ∧
  parse_args gettempdir [r; v; "--temp-dir"; x] =
    Ok (mkNamespace r v "default.cfg" "model.h5" None x None).
Proof.
  intros Hr Hv Hx.
  repeat split; unfold parse_args, argparse.parse_args;
    rewrite (classify_operand parser r _ Hr), (classify_operand parser v _ Hv);
    [ rewrite (classify_option parser "-c" _ _ eq_refl eq_refl)
    | rewrite (classify_option parser "--config-file" _ _ eq_refl eq_refl)
    | rewrite (classify_option parser "-o" _ _ eq_refl eq_refl)
    | rewrite (classify_option parser "--output-model" _ _ eq_refl eq_refl)
    | rewrite (classify_option parser "--temp-dir" _ _ eq_refl eq_refl) ];
    rewrite (classify_operand parser x _ Hx);
    cbn [argparse.classify result_bind]; rewrite positional_actions;
    rewrite !consume_operand by first [exact Hr | exact Hv | reflexivity];
    rewrite (consume_store_value _ _ _ x [] _ (operand_not_sep x Hx));
    cbn [argparse.namespace argparse.positionals argparse.extras];
    by rewrite consume_nothing.
Qed.

Lemma parse_args_value_options_witness :
  argparse.first_is_dash "tiles" = false ∧
  argparse.first_is_dash "labels.geojson" = false ∧
  argparse.first_is_dash "site.cfg" = false ∧
  parse_args "/tmp" ["tiles"; "labels.geojson"; "-c"; "site.cfg"] =
    Ok (mkNamespace "tiles" "labels.geojson" "site.cfg" "model.h5" None "/tmp" None).
Proof.
  split; [reflexivity|]. split; [reflexivity|]. split; [reflexivity|].
  exact (proj1 (parse_args_value_options "/tmp" "tiles" "labels.geojson" "site.cfg"
                  eq_refl eq_refl eq_refl)).
Defined.

(** [--seed] followed by a string that is taken as an argument. *)
Lemma parse_args_seed gettempdir r v x :
  argparse.first_is_dash r = false →
  argparse.first_is_dash v = false →
  argparse._parse_optional parser x = Ok None →
  String.eqb x "--" = false →
  parse_args gettempdir [r; v; "--seed"; x] =
    match builtins.int x with
    | Some n => Ok (mkNamespace r v "default.cfg" "model.h5" (Some n) gettempdir None)
    | None => Raise (SystemExit 2)
    end.
Proof.
  intros Hr Hv Hx Hsep. unfold parse_args, argparse.parse_args.
  rewrite (classify_operand parser r _ Hr), (classify_operand parser v _ Hv).
  rewrite (classify_option parser "--seed" _ _ eq_refl parse_optional_seed).
  cbn [argparse.classify]. rewrite Hsep, Hx.
  cbn [argparse.classify result_bind]. rewrite positional_actions.
  rewrite !consume_operand by first [exact Hr | exact Hv | reflexivity].
  rewrite (consume_seed_value x [] _ Hsep).
  destruct (builtins.int x) as [n|]; [|done].
  cbn [argparse.namespace argparse.positionals argparse.extras].
  by rewrite consume_nothing.
Qed.

(** X16.  The value of [--seed] goes through [int]: when the string after
    [--seed] does not begin with a dash, [parse_args] stores the integer that
    [int] reads from it, and leaves with exit status 2 when [int] rejects
    it. *)
Theorem parse_args_seed_value (gettempdir r v x : string) :
  argparse.first_is_dash r = false →
  argparse.first_is_dash v = false →
  argparse.first_is_dash x = false →
  parse_args gettempdir [r; v; "--seed"; x] =
    match builtins.int x with
    | Some n => Ok (mkNamespace r v "default.cfg" "model.h5" (Some n) gettempdir None)
    | None => Raise (SystemExit 2)
    end.
Proof.
  intros Hr Hv Hx. apply (parse_args_seed gettempdir r v x Hr Hv).
  - unfold argparse._parse_optional. by rewrite Hx.
  - by apply operand_not_sep.
Qed.

Lemma parse_args_seed_value_witness :
  argparse.first_is_dash "tiles" = false ∧
  argparse.first_is_dash "labels.geojson" = false ∧
  argparse.first_is_dash " 1_000 " = false ∧
  parse_args "/tmp" ["tiles"; "labels.geojson"; "--seed"; " 1_000 "] =
    match builtins.int " 1_000 " with
    | Some n =>
        Ok (mkNamespace "tiles" "labels.geojson" "default.cfg" "model.h5" (Some n)
              "/tmp" None)
    | None => Raise (SystemExit 2)
    end.
Proof.
  split; [reflexivity|]. split; [reflexivity|]. split; [reflexivity|].
  exact (parse_args_seed_value "/tmp" "tiles" "labels.geojson" " 1_000 "
           eq_refl eq_refl eq_refl).
Defined.

(** ** Decimal numerals *)

Lemma substring_0_0 s : String.substring 0 0 s = EmptyString.
Proof. by destruct s. Qed.

(** A string that begins with a dash and a digit or a dot is no option of the
    parser, in full or abbreviated. *)
Lemma parse_optional_negative_number x :
  argparse.negative_number x = true →
  argparse._parse_optional parser x = Ok None ∧ String.eqb x "--" = false.
Proof.
  intros Hneg.
  destruct x as [|c [|d rest]]; [done| |].
  { cbn in Hneg. by rewrite andb_false_r in Hneg. }
  assert (c = "-"%char) as ->.
  { cbn in Hneg. destruct (Ascii.eqb_spec c "-"); [done|done]. }
  assert (builtins.is_digit d = true ∨ d = "."%char) as Hd.
  { cbn in Hneg. destruct (builtins.is_digit d); [by left|right].
    cbn in Hneg. by destruct (Ascii.eqb_spec d "."). }
  assert (∀ l, argparse.lookup_option (String "-"%char (String d l))
                 (argparse._option_string_actions parser) = None) as Hlookup.
  { intros l. destruct Hd as [Hd| ->]; [|reflexivity].
    destruct d as [[] [] [] [] [] [] [] []]; try discriminate Hd; reflexivity. }
  assert (argparse._get_option_tuples parser (String "-"%char (String d rest)) = [])
    as Htuples.
  { unfold argparse._get_option_tuples. cbn [String.substring].
    rewrite substring_0_0.
    destruct Hd as [Hd| ->]; [|reflexivity].
    destruct d as [[] [] [] [] [] [] [] []]; try discriminate Hd; reflexivity. }
  assert (argparse.split_eq (String "-"%char (String d rest)) =
            match argparse.split_eq rest with
            | Some (l, r) => Some (String "-"%char (String d l), r)
            | None => None
            end) as Hsplit.
  { destruct Hd as [Hd| ->].
    - destruct d as [[] [] [] [] [] [] [] []]; try discriminate Hd;
        cbn; by destruct (argparse.split_eq rest) as [[]|].
    - cbn. by destruct (argparse.split_eq rest) as [[]|]. }
  split.
  - unfold argparse._parse_optional. rewrite Hlookup, Hsplit, Htuples, Hneg.
    cbn [argparse.first_is_dash negb String.length Nat.eqb].
    destruct (argparse.split_eq rest) as [[l r]|]; [by rewrite Hlookup|done].
  - destruct Hd as [Hd| ->]; [|reflexivity].
    destruct d as [[] [] [] [] [] [] [] []]; try discriminate Hd; reflexivity.
Qed.

Lemma pretty_N_char_digit d :
  (d < 10)%N →
  builtins.is_digit (pretty_N_char d) = true ∧
  builtins.digit_value (pretty_N_char d) = Z.of_N d ∧
  builtins.is_space (pretty_N_char d) = false.
Proof.
  intros Hd.
  assert (d = 0 ∨ d = 1 ∨ d = 2 ∨ d = 3 ∨ d = 4 ∨ d = 5 ∨ d = 6 ∨ d = 7 ∨ d = 8 ∨ d = 9)%N
    as Hcases by lia.
  destruct_or!; subst; done.
Qed.

Lemma digits_pretty_N_go x : ∀ s,
  (0 < x)%N →
  builtins.digits (pretty_N_go x s) = builtins.more_digits (Z.of_N x) s.
Proof.
  induction (N.lt_wf_0 x) as [x _ IH]. intros s Hx.
  rewrite pretty_N_go_step by done.
  destruct (pretty_N_char_digit (x `mod` 10)) as (Hd & Hv & _); [by apply N.mod_lt|].
  destruct (decide (x `div` 10 = 0)%N) as [H0|H0].
  - rewrite H0, pretty_N_go_0. cbn [builtins.digits]. rewrite Hd, Hv.
    f_equal. pose proof (N.div_mod' x 10) as Hdm. rewrite H0 in Hdm. lia.
  - assert (x `div` 10 < x)%N as Hlt by (apply N.div_lt; lia).
    assert (0 < x `div` 10)%N as Hpos by (by apply N.neq_0_lt_0).
    rewrite (IH _ Hlt _ Hpos).
    cbn [builtins.more_digits]. rewrite Hd, Hv. f_equal.
    pose proof (N.div_mod' x 10) as Hdm. lia.
Qed.

Lemma skip_digits_pretty_N_go x : ∀ s,
  ∃ k, argparse.skip_digits (pretty_N_go x s) =
         ((k + (argparse.skip_digits s).1)%nat, (argparse.skip_digits s).2) ∧
       ((0 < x)%N → (0 < k)%nat).
Proof.
  induction (N.lt_wf_0 x) as [x _ IH]. intros s.
  destruct (decide (x = 0)%N) as [->|Hx].
  - exists 0%nat. rewrite pretty_N_go_0. split; [|lia].
    by destruct (argparse.skip_digits s).
  - rewrite pretty_N_go_step by lia.
    destruct (pretty_N_char_digit (x `mod` 10)) as (Hd & _ & _); [by apply N.mod_lt|].
    destruct (IH (x `div` 10)%N (N.div_lt x 10 ltac:(lia) ltac:(lia))
                (String (pretty_N_char (x `mod` 10)) s)) as (k & -> & _).
    exists (S k). cbn [argparse.skip_digits]. rewrite Hd.
    destruct (argparse.skip_digits s) as [n r]. cbn [fst snd]. split; [|lia].
    f_equal. lia.
Qed.

Lemma head_pretty_N_go x : ∀ s,
  (0 < x)%N →
  ∃ c rest, pretty_N_go x s = String c rest ∧ builtins.is_digit c = true.
Proof.
  induction (N.lt_wf_0 x) as [x _ IH]. intros s Hx.
  rewrite pretty_N_go_step by done.
  destruct (pretty_N_char_digit (x `mod` 10)) as (Hd & _ & _); [by apply N.mod_lt|].
  destruct (decide (x `div` 10 = 0)%N) as [H0|H0].
  - rewrite H0, pretty_N_go_0. by eexists _, _.
  - apply IH; [apply N.div_lt; lia|by apply N.neq_0_lt_0].
Qed.

Lemma rstrip_pretty_N_go x : ∀ s,
  builtins.rstrip s = s →
  s ≠ EmptyString ∨ (0 < x)%N →
  builtins.rstrip (pretty_N_go x s) = pretty_N_go x s ∧
  pretty_N_go x s ≠ EmptyString.
Proof.
  induction (N.lt_wf_0 x) as [x _ IH]. intros s Hs Hne.
  destruct (decide (x = 0)%N) as [->|Hx].
  - rewrite pretty_N_go_0. destruct Hne as [Hne|Hne]; [done|lia].
  - rewrite pretty_N_go_step by lia.
    destruct (pretty_N_char_digit (x `mod` 10)) as (_ & _ & Hsp); [by apply N.mod_lt|].
    apply IH; [apply N.div_lt; lia| |by left].
    cbn [builtins.rstrip]. rewrite Hs, Hsp. by destruct s.
Qed.

(** The numeral of a number below [10 ^ k] has at most [k] digits. *)
Lemma count_digits_pretty_N_go (k : N) : ∀ x s,
  (x < 10 ^ k)%N →
  builtins.count_digits (pretty_N_go x s) ≤ builtins.count_digits s + Z.of_N k.
Proof.
  induction k as [|k IH] using N.peano_ind; intros x s Hx.
  - assert (x = 0%N) as -> by (change (10 ^ 0)%N with 1%N in Hx; lia).
    rewrite pretty_N_go_0. lia.
  - destruct (decide (x = 0)%N) as [->|Hne]; [rewrite pretty_N_go_0; lia|].
    rewrite pretty_N_go_step by lia.
    destruct (pretty_N_char_digit (x `mod` 10)) as (Hd & _ & _); [by apply N.mod_lt|].
    assert (x `div` 10 < 10 ^ k)%N as Hdiv.
    { rewrite N.pow_succ_r' in Hx. by apply N.Div0.div_lt_upper_bound. }
    specialize (IH _ (String (pretty_N_char (x `mod` 10)) s) Hdiv).
    cbn [builtins.count_digits] in IH. rewrite Hd in IH. lia.
Qed.

Lemma int_digits s c rest :
  s = String c rest →
  builtins.is_digit c = true →
  builtins.rstrip s = s →
  builtins.count_digits s ≤ builtins.max_str_digits →
  builtins.int s = builtins.digits s.
Proof.
  intros -> Hc Hr Hcount. unfold builtins.int.
  rewrite (proj2 (Z.ltb_ge _ _) Hcount).
  assert (builtins.lstrip (String c rest) = String c rest) as ->.
  { cbn. destruct c as [[] [] [] [] [] [] [] []]; try discriminate Hc; reflexivity. }
  rewrite Hr.
  destruct c as [[] [] [] [] [] [] [] []]; try discriminate Hc; reflexivity.
Qed.

Lemma int_minus s c rest :
  s = String c rest →
  builtins.rstrip s = s →
  builtins.count_digits s ≤ builtins.max_str_digits →
  builtins.int (String "-"%char s) = Z.opp <$> builtins.digits s.
Proof.
  intros Hs Hr Hcount. unfold builtins.int.
  change (builtins.count_digits (String "-"%char s)) with (0 + builtins.count_digits s).
  rewrite (proj2 (Z.ltb_ge _ _)) by lia.
  change (builtins.lstrip (String "-"%char s)) with (String "-"%char s).
  cbn [builtins.rstrip]. rewrite Hr. by rewrite Hs.
Qed.

Lemma int_pretty_N_go x :
  (0 < x < 10 ^ 4300)%N → builtins.int (pretty_N_go x "") = Some (Z.of_N x).
Proof.
  intros [Hx Hmax].
  destruct (head_pretty_N_go x "" Hx) as (c & rest & Hhead & Hc).
  destruct (rstrip_pretty_N_go x "" eq_refl (or_intror Hx)) as [Hr _].
  rewrite (int_digits _ c rest Hhead Hc Hr).
  - by rewrite digits_pretty_N_go.
  - apply (count_digits_pretty_N_go 4300 x ""), Hmax.
Qed.

(** [int] reads back the decimal numeral of an integer of at most 4300
    digits. *)
Lemma int_pretty (n : Z) : Z.abs n < 10 ^ 4300 → builtins.int (pretty n) = Some n.
Proof.
  intros Hn.
  assert (∀ p, Z.pos p < 10 ^ 4300 → (N.pos p < 10 ^ 4300)%N) as Hpos.
  { intros p Hp. apply N2Z.inj_lt. by rewrite N2Z.inj_pow. }
  destruct n as [|p|p]; [done| |].
  - change (pretty (Z.pos p)) with (pretty_N_go (N.pos p) "").
    rewrite int_pretty_N_go; [done|]. split; [done|]. by apply Hpos.
  - change (pretty (Z.neg p)) with (String "-"%char (pretty_N_go (N.pos p) "")).
    destruct (head_pretty_N_go (N.pos p) "" eq_refl) as (c & rest & Hhead & Hc).
    destruct (rstrip_pretty_N_go (N.pos p) "" eq_refl (or_intror eq_refl)) as [Hr _].
    rewrite (int_minus _ c rest Hhead Hr).
    + by rewrite digits_pretty_N_go.
    + apply (count_digits_pretty_N_go 4300 (N.pos p) ""). by apply Hpos.
Qed.

(** The decimal numeral of an integer, negative or not, is taken as an
    argument and not as an option. *)
Lemma pretty_operand (n : Z) :
  argparse._parse_optional parser (pretty n) = Ok None ∧
  String.eqb (pretty n) "--" = false.
Proof.
  destruct n as [|p|p]; [done| |].
  - change (pretty (Z.pos p)) with (pretty_N_go (N.pos p) "").
    destruct (head_pretty_N_go (N.pos p) "" eq_refl) as (c & rest & -> & Hc).
    assert (argparse.first_is_dash (String c rest) = false) as Hdash.
    { destruct c as [[] [] [] [] [] [] [] []]; try discriminate Hc; reflexivity. }
    split; [|by apply operand_not_sep].
    unfold argparse._parse_optional. by rewrite Hdash.
  - change (pretty (Z.neg p)) with (String "-"%char (pretty_N_go (N.pos p) "")).
    apply parse_optional_negative_number.
    cbn [argparse.negative_number].
    destruct (skip_digits_pretty_N_go (N.pos p) "") as (k & -> & Hk).
    cbn. specialize (Hk eq_refl). destruct k; [lia|]. by rewrite Nat.add_0_r.
Qed.

(** X17.  [--seed] takes every integer of at most 4300 digits in decimal
    notation, negative ones included: the numeral of [n] after [--seed] is
    stored as the integer [n].  A negative numeral is not mistaken for an
    option, because the parser has no option that looks like a negative
    number.  (Beyond 4300 digits [int] refuses to convert.) *)
Theorem parse_args_seed_round_trip (gettempdir r v : string) (n : Z) :
  argparse.first_is_dash r = false →
  argparse.first_is_dash v = false →
  Z.abs n < 10 ^ 4300 →
  parse_args gettempdir [r; v; "--seed"; pretty n] =
    Ok (mkNamespace r v "default.cfg" "model.h5" (Some n) gettempdir None).
Proof.
  intros Hr Hv Hn. destruct (pretty_operand n) as [Hopt Hsep].
  rewrite (parse_args_seed gettempdir r v (pretty n) Hr Hv Hopt Hsep).
  by rewrite int_pretty.
Qed.

Lemma parse_args_seed_round_trip_witness :
  argparse.first_is_dash "tiles" = false ∧
  argparse.first_is_dash "labels.geojson" = false ∧
  Z.abs (-42) < 10 ^ 4300 ∧
  parse_args "/tmp" ["tiles"; "labels.geojson"; "--seed"; "-42"] =
    Ok (mkNamespace "tiles" "labels.geojson" "default.cfg" "model.h5" (Some (-42))
          "/tmp" None).
Proof.
  assert (Z.abs (-42) < 10 ^ 4300) as Hn by (by vm_compute).
  split; [reflexivity|]. split; [reflexivity|]. split; [exact Hn|].
  exact (parse_args_seed_round_trip "/tmp" "tiles" "labels.geojson" (-42)
           eq_refl eq_refl Hn).
Defined.

(** ** The configuration file, whatever its content *)

(** *** Lower case *)

Lemma lower_char_not_upper c : str.isupper (str.lower_char c) = false.
Proof. destruct c as [[] [] [] [] [] [] [] []]; reflexivity. Qed.

Lemma has_upper_lower s : str.has_upper (str.lower s) = false.
Proof.
  induction s as [|c s IH]; [done|].
  cbn [str.lower str.has_upper]. by rewrite lower_char_not_upper, IH.
Qed.

(** [lower] leaves a string without capital letters as it is. *)
Lemma lower_no_upper s : str.has_upper s = false → str.lower s = s.
Proof.
  induction s as [|c s IH]; [done|].
  cbn [str.lower str.has_upper]. intros [Hc Hs]%orb_false_elim.
  unfold str.lower_char. by rewrite Hc, IH.
Qed.

(** *** Dictionaries *)

Lemma contains_true {V} key (d : list (string * V)) :
  configparser.contains key d = true ↔ key ∈ d.*1.
Proof.
  unfold configparser.contains. induction d as [|[k v] d IH]; simpl.
  - split; [done|]. by intros ?%elem_of_nil.
  - destruct (String.eqb_spec k key) as [->|Hne].
    + split; [intros _; left|done].
    + rewrite IH. split; [by right|]. intros [?|?]%elem_of_cons; [congruence|done].
Qed.

Lemma contains_false {V} key (d : list (string * V)) :
  configparser.contains key d = false ↔ key ∉ d.*1.
Proof.
  rewrite <- contains_true. destruct (configparser.contains key d); intuition congruence.
Qed.

Lemma getitem_is_Some {V} key (d : list (string * V)) :
  is_Some (configparser.getitem key d) ↔ key ∈ d.*1.
Proof.
  rewrite <- contains_true. unfold configparser.contains.
  destruct (configparser.getitem key d); split; try done.
Qed.

Lemma getitem_elem_of {V} key (v : V) (d : list (string * V)) :
  configparser.getitem key d = Some v → (key, v) ∈ d.
Proof.
  induction d as [|[k v'] d IH]; simpl; [done|].
  destruct (String.eqb_spec k key) as [->|Hne].
  - intros [= ->]. left.
  - intros Hget. right. by apply IH.
Qed.

(** Assigning to a key that the dictionary has leaves the keys as they are. *)
Lemma setitem_keys {V} key (v v' : V) (d : list (string * V)) :
  configparser.getitem key d = Some v' → (configparser.setitem key v d).*1 = d.*1.
Proof.
  induction d as [|[k u] d IH]; [done|].
  cbn [configparser.getitem configparser.setitem].
  destruct (String.eqb k key); [done|]. intros Hget.
  rewrite !fmap_cons. by rewrite IH.
Qed.

Lemma Forall_setitem {V} (P : string * V → Prop) key v (d : list (string * V)) :
  Forall P d → P (key, v) → Forall P (configparser.setitem key v d).
Proof.
  intros Hd Hkey. induction Hd as [|[k u] d Hk Hd IH]; simpl; [by repeat constructor|].
  destruct (String.eqb_spec k key) as [->|Hne]; by constructor.
Qed.

(** *** Reading keeps the option names in lower case *)

Lemma lowercase_keys_app d key v :
  lowercase_keys d → str.has_upper key = false → lowercase_keys (d ++ [(key, v)]).
Proof.
  unfold lowercase_keys. intros Hd Hkey. rewrite fmap_app. apply Forall_app.
  split; [done|]. by repeat constructor.
Qed.

Lemma lowercase_keys_rstrip d :
  lowercase_keys d → lowercase_keys (configparser.rstrip_values d).
Proof.
  unfold lowercase_keys, configparser.rstrip_values.
  by rewrite <- list_fmap_compose.
Qed.

Lemma lowercase_cursect_dict self sectname :
  lowercase_options self → lowercase_keys (configparser.cursect_dict self sectname).
Proof.
  intros [Hd Hs]. unfold configparser.cursect_dict.
  destruct (String.eqb sectname configparser.default_section); [done|].
  destruct (configparser.getitem sectname (configparser._sections self)) as [d|] eqn:Hget;
    [|by constructor].
  apply getitem_elem_of in Hget. by apply (proj1 (Forall_forall _ _) Hs _ Hget).
Qed.

Lemma lowercase_set_cursect self sectname d :
  lowercase_options self → lowercase_keys d →
  lowercase_options (configparser.set_cursect self sectname d).
Proof.
  intros [Hd Hs] Hnew. unfold configparser.set_cursect.
  destruct (String.eqb sectname configparser.default_section); split; try done.
  cbn [configparser._sections]. by apply Forall_setitem.
Qed.

Lemma lowercase_append_value value r :
  lowercase_options (configparser.config r) →
  lowercase_options (configparser.config (configparser.append_value value r)).
Proof.
  intros Hr. unfold configparser.append_value.
  destruct (configparser.cursect r) as [sectname|]; [|done].
  destruct (configparser.getitem _ _) as [lines|] eqn:Hget; [|done].
  cbn [configparser.config]. apply lowercase_set_cursect; [done|].
  unfold lowercase_keys. rewrite (setitem_keys _ _ _ _ Hget).
  by apply lowercase_cursect_dict.
Qed.

Lemma lowercase_read_line fpname line r r' :
  configparser.read_line fpname line r = Ok r' →
  lowercase_options (configparser.config r) →
  lowercase_options (configparser.config r').
Proof.
  unfold configparser.read_line. intros Hread Hr.
  destruct (configparser.is_comment line); [by injection Hread as <-|].
  destruct (str.strip line) as [|c value] eqn:Hvalue.
  { injection Hread as <-.
    destruct (configparser.in_option r); [by apply lowercase_append_value|done]. }
  destruct (configparser.in_option r && _).
  { injection Hread as <-. by apply lowercase_append_value. }
  destruct (configparser.header _) as [sectname|].
  - destruct (configparser.contains sectname _); [done|]. injection Hread as <-.
    cbn [configparser.config].
    destruct (String.eqb sectname configparser.default_section); [done|].
    destruct Hr as [Hd Hs]. split; [done|]. cbn [configparser._sections].
    apply Forall_app. split; [done|]. by repeat constructor.
  - destruct (configparser.cursect r) as [sectname|]; [|done].
    destruct (configparser.option_line _) as [[option optval]|];
      [|by injection Hread as <-].
    destruct (configparser.contains _ _); [done|]. injection Hread as <-.
    cbn [configparser.config]. apply lowercase_set_cursect; [done|].
    apply lowercase_keys_app; [by apply lowercase_cursect_dict|].
    apply has_upper_lower.
Qed.

Lemma lowercase_read_lines fpname lines : ∀ r r',
  configparser.read_lines fpname lines r = Ok r' →
  lowercase_options (configparser.config r) →
  lowercase_options (configparser.config r').
Proof.
  induction lines as [|line lines IH]; intros r r'; cbn [configparser.read_lines].
  - by intros [= <-].
  - destruct (configparser.read_line fpname line r) as [r1|] eqn:Hline; [|done].
    cbn [result_bind]. intros Hread Hr.
    apply (IH _ _ Hread), (lowercase_read_line _ _ _ _ Hline Hr).
Qed.

(** Whatever the parser has read, its option names are in lower case. *)
Lemma lowercase_read_file fpname f config :
  configparser.read_file configparser.new fpname f = Ok config →
  lowercase_options config.
Proof.
  destruct f as [content|content e]; cbn [configparser.read_file].
  - unfold configparser._read, configparser.read_all.
    destruct (configparser.read_lines _ _ _) as [r|] eqn:Hread; [|done].
    cbn [result_bind]. destruct (configparser.pending r); [done|]. intros [= <-].
    apply lowercase_read_lines in Hread as [Hd Hs]; [|by repeat constructor].
    split; cbn [configparser._join_multiline_values configparser._defaults
                configparser._sections].
    + by apply lowercase_keys_rstrip.
    + apply Forall_fmap. eapply Forall_impl; [exact Hs|].
      intros sec Hsec. by apply lowercase_keys_rstrip.
  - by destruct (configparser.read_all _ _ _).
Qed.

(** *** What reading raises *)

Lemma read_line_raise fpname line r e :
  configparser.read_line fpname line r = Raise e → is_reading_error e = true.
Proof.
  unfold configparser.read_line.
  repeat case_match; intros Hraise; by inversion Hraise.
Qed.

Lemma read_lines_raise fpname lines : ∀ r e,
  configparser.read_lines fpname lines r = Raise e → is_reading_error e = true.
Proof.
  induction lines as [|line lines IH]; intros r e; cbn [configparser.read_lines]; [done|].
  destruct (configparser.read_line fpname line r) as [r1|e1] eqn:Hline; cbn [result_bind].
  - apply IH.
  - intros [= <-]. by apply read_line_raise in Hline.
Qed.

(** Reading a file raises an error of [_read], or the error that the
    file itself has. *)
Lemma read_file_raise fpname f e :
  configparser.read_file configparser.new fpname f = Raise e →
  is_reading_error e = true ∨ ∃ content, f = broken content e.
Proof.
  destruct f as [content|content e']; cbn [configparser.read_file].
  - unfold configparser._read, configparser.read_all.
    destruct (configparser.read_lines _ _ _) as [r|e1] eqn:Hread; cbn [result_bind].
    + destruct (configparser.pending r); [|done]. intros [= <-]. by left.
    + intros [= <-]. left. by apply read_lines_raise in Hread.
  - unfold configparser.read_all.
    destruct (configparser.read_lines _ _ _) as [r|e1] eqn:Hread; cbn [result_bind].
    + intros [= <-]. right. by exists content.
    + intros [= <-]. left. by apply read_lines_raise in Hread.
Qed.

(** Lines that are passed over leave the loop where it began. *)
Lemma read_lines_skipped fpname pre lines self :
  Forall (λ line, is_skipped line = true) pre →
  configparser.read_lines fpname (pre ++ lines)
    (configparser.mkReader self None EmptyString 0 false) =
  configparser.read_lines fpname lines
    (configparser.mkReader self None EmptyString 0 false).
Proof.
  induction 1 as [|line pre Hline _ IH]; [done|].
  cbn [app configparser.read_lines]. unfold configparser.read_line at 1.
  unfold is_skipped in Hline.
  destruct (configparser.is_comment line); [exact IH|].
  destruct (str.strip line); [exact IH|done].
Qed.

(** *** Interpolation *)

Lemma _interpolate_some_plain fuel optname section map v :
  configparser.has_percent v = false →
  configparser._interpolate_some (S fuel) optname section map v = Ok v.
Proof.
  intros Hv. cbn [configparser._interpolate_some].
  induction v as [|c v IH]; [done|].
  cbn [configparser.has_percent] in Hv.
  destruct (Ascii.eqb c "%") eqn:Hc; [done|].
  specialize (IH Hv). revert IH. cbn -[Ascii.eqb]. rewrite ?Hc. by intros ->.
Qed.

Lemma _interpolate_some_raise fuel optname section map : ∀ v e,
  configparser._interpolate_some fuel optname section map v = Raise e →
  is_interpolation_error e = true.
Proof.
  induction fuel as [|fuel IH]; intros v e.
  - cbn. by intros [= <-].
  - cbn [configparser._interpolate_some]. unfold result_bind.
    match goal with
    | |- ?go configparser.Text v = _ → _ =>
        cut (∀ e at_, go at_ v = Raise e → is_interpolation_error e = true);
        [intros Hgo; apply Hgo|]
    end.
    clear e. induction v as [|c v IHv]; intros e at_.
    + destruct at_; cbn; intros H; by inversion H.
    + destruct at_; cbn -[Ascii.eqb configparser._interpolate_some];
        repeat case_match; intros Hraise;
        first [ by inversion Hraise
              | exact (IHv _ _ Hraise)
              | inversion Hraise; subst; by eapply IHv
              | inversion Hraise; subst; by eapply IH ].
Qed.

Lemma _interpolate_some_bare_percent fuel optname section map pre rest :
  configparser.has_percent pre = false →
  bare_percent rest = true →
  configparser._interpolate_some (S fuel) optname section map
      (pre +:+ String "%"%char rest) =
    Raise (InterpolationSyntaxError optname section).
Proof.
  intros Hpre Hrest. cbn [configparser._interpolate_some].
  induction pre as [|c pre IH].
  - destruct rest as [|c rest]; [done|]. cbn [bare_percent] in Hrest.
    apply andb_prop in Hrest as [H1%negb_true_iff H2%negb_true_iff].
    change ("" +:+ String "%"%char (String c rest))
      with (String "%"%char (String c rest)).
    cbn -[Ascii.eqb]. by rewrite H1, H2.
  - cbn [configparser.has_percent] in Hpre.
    destruct (Ascii.eqb c "%") eqn:Hc; [done|].
    specialize (IH Hpre). revert IH.
    change (String c pre +:+ String "%"%char rest)
      with (String c (pre +:+ String "%"%char rest)).
    cbn -[Ascii.eqb]. rewrite ?Hc. by intros ->.
Qed.

(** *** The dictionary of a section *)

Lemma dict_items_keys config section keys : ∀ acc m,
  configparser.dict_items config section keys acc = Ok m →
  ∀ k, is_Some (m !! k) ↔ k ∈ keys ∨ is_Some (acc !! k).
Proof.
  induction keys as [|key keys IH]; intros acc m; cbn [configparser.dict_items].
  - intros [= <-] k. split; [by right|]. by intros [?%elem_of_nil|].
  - destruct (configparser.getitem_option config section key) as [value|]; [|done].
    cbn [result_bind]. intros Hm k. rewrite (IH _ _ Hm k), lookup_insert_is_Some.
    rewrite elem_of_cons. destruct (decide (key = k)); intuition congruence.
Qed.

Lemma dict_items_plain config section keys : ∀ acc,
  Forall (λ k, configparser.optionxform k = k ∧
               ∃ v, configparser.unified config section k = Some v ∧
                    configparser.has_percent v = false) keys →
  ∃ m, configparser.dict_items config section keys acc = Ok m ∧
       ∀ k, m !! k = if decide (k ∈ keys) then configparser.unified config section k
                     else acc !! k.
Proof.
  induction keys as [|key keys IH]; intros acc Hkeys.
  - exists acc. split; [done|]. intros k. by rewrite decide_False by apply not_elem_of_nil.
  - apply Forall_cons in Hkeys as [(Hlow & v & Hv & Hp) Hkeys].
    cbn [configparser.dict_items]. unfold configparser.getitem_option.
    rewrite Hlow, Hv. unfold configparser.before_get, configparser.MAX_INTERPOLATION_DEPTH.
    rewrite _interpolate_some_plain by done. cbn [result_bind].
    destruct (IH (<[key:=v]> acc) Hkeys) as (m & -> & Hm). exists m. split; [done|].
    intros k. rewrite Hm. destruct (decide (k = key)) as [->|Hne].
    + rewrite (decide_True (P := key ∈ key :: keys)) by left.
      destruct (decide (key ∈ keys)); [done|]. by rewrite lookup_insert_eq.
    + rewrite lookup_insert_ne by done.
      destruct (decide (k ∈ keys)) as [Hin|Hin].
      * by rewrite decide_True by (by right).
      * rewrite decide_False; [done|]. by intros [?|?]%elem_of_cons.
Qed.

Lemma getitem_option_raise config section key e :
  configparser.getitem_option config section key = Raise e →
  is_Some (configparser.unified config section (configparser.optionxform key)) →
  is_interpolation_error e = true.
Proof.
  unfold configparser.getitem_option. intros Hget [v Hv]. rewrite Hv in Hget.
  by apply _interpolate_some_raise in Hget.
Qed.

Lemma dict_items_raise config section keys : ∀ acc e,
  configparser.dict_items config section keys acc = Raise e →
  Forall (λ k, is_Some (configparser.unified config section
                          (configparser.optionxform k))) keys →
  is_interpolation_error e = true.
Proof.
  induction keys as [|key keys IH]; intros acc e; cbn [configparser.dict_items]; [done|].
  intros Hraise [Hkey Hkeys]%Forall_cons.
  destruct (configparser.getitem_option config section key) as [value|e'] eqn:Hget;
    cbn [result_bind] in Hraise.
  - by apply (IH _ _ Hraise).
  - injection Hraise as <-. by apply (getitem_option_raise _ _ _ _ Hget).
Qed.

Lemma dict_items_stops config section keys : ∀ acc key e,
  key ∈ keys →
  configparser.getitem_option config section key = Raise e →
  ∃ e', configparser.dict_items config section keys acc = Raise e'.
Proof.
  induction keys as [|k keys IH]; intros acc key e Hin Hget.
  - by apply elem_of_nil in Hin.
  - cbn [configparser.dict_items].
    destruct (configparser.getitem_option config section k) as [value|e'] eqn:Hk;
      cbn [result_bind]; [|by eexists].
    apply elem_of_cons in Hin as [->|Hin]; [congruence|].
    by apply (IH _ key e).
Qed.

(** *** A section and DEFAULT *)

Lemma unified_chain config section own key :
  configparser.getitem section (configparser._sections config) = Some own →
  configparser.unified config section key = chain own (configparser._defaults config) key.
Proof.
  intros Hown. unfold configparser.unified, configparser.sectiondict, chain.
  by rewrite Hown.
Qed.

Lemma chain_is_Some own d key :
  is_Some (chain own d key) ↔ key ∈ own.*1 ∨ key ∈ d.*1.
Proof.
  unfold chain. rewrite <- !getitem_is_Some.
  destruct (configparser.getitem key own) as [v|]; [|split; [by right|]].
  - split; [by left|by eexists].
  - intros [[]|]; done.
Qed.

Lemma elem_of_options config section own key :
  configparser.getitem section (configparser._sections config) = Some own →
  key ∈ configparser.options config section ↔
  key ∈ own.*1 ∨ key ∈ (configparser._defaults config).*1.
Proof.
  intros Hown. unfold configparser.options, configparser.sectiondict. rewrite Hown.
  cbn [default]. rewrite elem_of_app, list_elem_of_filter, contains_false.
  destruct (decide (key ∈ own.*1)); tauto.
Qed.

Lemma chain_elem_of own d key v :
  chain own d key = Some v → (key, v) ∈ own ++ d.
Proof.
  unfold chain. rewrite elem_of_app.
  destruct (configparser.getitem key own) as [v'|] eqn:Hown.
  - intros [= ->]. left. by apply getitem_elem_of.
  - intros Hd. right. by apply getitem_elem_of.
Qed.

(** The options of a section that the parser has read: their names have no
    capital letter, and each is found when its value is asked for. *)
Lemma options_of_section config section own key :
  lowercase_options config →
  configparser.getitem section (configparser._sections config) = Some own →
  key ∈ configparser.options config section →
  str.has_upper key = false ∧
  configparser.optionxform key = key ∧
  is_Some (chain own (configparser._defaults config) key).
Proof.
  intros [Hd Hs] Hown Hkey. apply (elem_of_options _ _ _ _ Hown) in Hkey.
  assert (lowercase_keys own) as Hlow.
  { apply getitem_elem_of in Hown. by apply (proj1 (Forall_forall _ _) Hs _ Hown). }
  assert (str.has_upper key = false) as Hupper.
  { destruct Hkey as [Hkey|Hkey];
      [by apply (proj1 (Forall_forall _ _) Hlow)|by apply (proj1 (Forall_forall _ _) Hd)]. }
  split; [done|]. split; [by apply lower_no_upper|]. by apply chain_is_Some.
Qed.

Lemma dict_raise config section own e :
  lowercase_options config →
  configparser.getitem section (configparser._sections config) = Some own →
  configparser.dict config section = Raise e →
  is_interpolation_error e = true.
Proof.
  intros Hlow Hown Hraise. apply dict_items_raise in Hraise; [done|].
  apply Forall_forall. intros key Hkey.
  destruct (options_of_section _ _ _ _ Hlow Hown Hkey) as (_ & -> & Hsome).
  by rewrite (unified_chain _ _ _ _ Hown).
Qed.

(** What [read_config_file] returns or raises once the file is read and has
    a [train] section. *)
Lemma train_options_read w config_file f config own :
  config_files w !! config_file = Some f →
  configparser.read_file configparser.new config_file f = Ok config →
  configparser.getitem "train" (configparser._sections config) = Some own →
  train_options w config_file = configparser.dict config "train".
Proof.
  intros Hfile Hread Hown. unfold train_options. rewrite Hfile, Hread.
  cbn [result_bind].
  unfold configparser.getitem_section, configparser.has_section, configparser.contains.
  by rewrite Hown.
Qed.

(** The ways in which [read_config_file] ends. *)
Lemma train_options_inv w config_file :
  train_options w config_file = Raise (KeyError "train") ∨
  (∃ f e, config_files w !! config_file = Some f ∧
          configparser.read_file configparser.new config_file f = Raise e ∧
          train_options w config_file = Raise e) ∨
  ∃ f config own,
    config_files w !! config_file = Some f ∧
    configparser.read_file configparser.new config_file f = Ok config ∧
    configparser.getitem "train" (configparser._sections config) = Some own ∧
    train_options w config_file = configparser.dict config "train".
Proof.
  destruct (config_files w !! config_file) as [f|] eqn:Hfile;
    [|left; by apply train_options_no_file].
  destruct (configparser.read_file configparser.new config_file f) as [config|e] eqn:Hread.
  - destruct (configparser.getitem "train" (configparser._sections config))
      as [own|] eqn:Hown.
    + right. right. exists f, config, own.
      split; [done|]. split; [done|]. split; [done|].
      by apply (train_options_read w config_file f config own).
    + left. apply (train_options_no_section w config_file f config Hfile Hread).
      unfold configparser.has_section, configparser.contains. by rewrite Hown.
  - right. left. exists f, e. split; [done|]. split; [done|].
    unfold train_options. by rewrite Hfile, Hread.
Qed.

(** X18.  Without percent signs there is no interpolation.  When the parser
    reads the file to its end without raising, finds a [train] section, and
    holds no value with a percent sign for that section or for DEFAULT,
    [read_config_file] returns the dictionary that maps each option name of
    the section and of DEFAULT to its value, the one of the section where
    both have the name, and that holds nothing else. *)
Theorem read_config_file_plain_values (w : World) (config_file : string) (f : file)
    (config : configparser.ConfigParser) (own : list (string * string)) (s : State) :
  config_files w !! config_file = Some f →
  configparser.read_file configparser.new config_file f = Ok config →
  configparser.getitem "train" (configparser._sections config) = Some own →
  Forall (λ kv : string * string, configparser.has_percent kv.2 = false)
    (own ++ configparser._defaults config) →
  ∃ m, (read_config_file w config_file s).1 = Ok m ∧
       ∀ key, m !! key = chain own (configparser._defaults config) key.
Proof.
  intros Hfile Hread Hown Hplain.
  rewrite read_config_file_run. cbn [fst].
  rewrite (train_options_read w config_file f config own Hfile Hread Hown).
  pose proof (lowercase_read_file _ _ _ Hread) as Hlow.
  unfold configparser.dict.
  destruct (dict_items_plain config "train" (configparser.options config "train") ∅)
    as (m & -> & Hm).
  { apply Forall_forall. intros key Hkey.
    destruct (options_of_section _ _ _ _ Hlow Hown Hkey) as (_ & Hfix & [v Hv]).
    split; [done|]. rewrite (unified_chain _ _ _ _ Hown). exists v. split; [done|].
    apply chain_elem_of in Hv. by apply (proj1 (Forall_forall _ _) Hplain _ Hv). }
  exists m. split; [done|]. intros key. rewrite Hm, (unified_chain _ _ _ _ Hown).
  destruct (decide _) as [Hin|Hin]; [done|]. rewrite lookup_empty.
  rewrite (elem_of_options _ _ _ _ Hown), <- chain_is_Some in Hin.
  destruct (chain _ _ key) eqn:Hc; [|done]. destruct Hin. by eexists.
Qed.

Lemma read_config_file_plain_values_witness :
  config_files sample.world !! "defaults.cfg" =
    Some (text (str.join_lines
                  ["[DEFAULT]"; "lr = 0.1"; "[train]"; "epochs = 10"; ""])) ∧
  configparser.read_file configparser.new "defaults.cfg"
      (text (str.join_lines ["[DEFAULT]"; "lr = 0.1"; "[train]"; "epochs = 10"; ""])) =
    Ok (configparser.mkConfigParser [("lr", "0.1")] [("train", [("epochs", "10")])]) ∧
  ∃ m, (read_config_file sample.world "defaults.cfg" logging.fresh).1 = Ok m ∧
       ∀ key, m !! key = chain [("epochs", "10")] [("lr", "0.1")] key.
Proof.
  split; [reflexivity|]. split; [reflexivity|].
  apply (read_config_file_plain_values sample.world "defaults.cfg"
           (text (str.join_lines ["[DEFAULT]"; "lr = 0.1"; "[train]"; "epochs = 10"; ""]))
           (configparser.mkConfigParser [("lr", "0.1")] [("train", [("epochs", "10")])])
           [("epochs", "10")] logging.fresh eq_refl eq_refl eq_refl).
  repeat constructor.
Defined.

(** X19.  [read_config_file] returns only for a file that decodes, that the
    parser reads to its end without raising and in which it finds a [train]
    section.  The keys of the dictionary are then the option names that the
    parser holds for that section and for DEFAULT, whatever the values are,
    and no key has a capital letter, of ASCII or of the letters with
    diacritics from 192 to 222: [isupper] is false of each of its
    characters. *)
Theorem read_config_file_returns (w : World) (config_file : string) (s : State)
    (m : gmap string string) :
  (read_config_file w config_file s).1 = Ok m →
  ∃ content config own,
    config_files w !! config_file = Some (text content) ∧
    configparser._read configparser.new config_file (str.lines content) = Ok config ∧
    configparser.getitem "train" (configparser._sections config) = Some own ∧
    (∀ key, is_Some (m !! key) ↔
            key ∈ own.*1 ∨ key ∈ (configparser._defaults config).*1) ∧
    (∀ key, is_Some (m !! key) → str.has_upper key = false).
Proof.
  rewrite read_config_file_run. cbn [fst]. intros Hm.
  destruct (train_options_inv w config_file)
    as [Hr|[(f & e & _ & _ & Hr)|(f & config & own & Hfile & Hread & Hown & Hr)]];
    [congruence|congruence|].
  rewrite Hr in Hm. unfold configparser.dict in Hm.
  pose proof (lowercase_read_file _ _ _ Hread) as Hlow.
  destruct f as [content|content e].
  2: { cbn in Hread. by destruct (configparser.read_all _ _ _). }
  exists content, config, own.
  assert (∀ key, is_Some (m !! key) ↔ key ∈ configparser.options config "train")
    as Hkeys.
  { intros key. rewrite (dict_items_keys _ _ _ _ _ Hm key), lookup_empty.
    split; [intros [?|[]%is_Some_None]; done|by left]. }
  split; [done|]. split; [done|]. split; [done|]. split.
  - intros key. by rewrite Hkeys, (elem_of_options _ _ _ _ Hown).
  - intros key Hkey%Hkeys.
    by destruct (options_of_section _ _ _ _ Hlow Hown Hkey) as (? & _).
Qed.

Lemma read_config_file_returns_witness :
  (read_config_file sample.world "default.cfg" logging.fresh).1 =
    Ok ({["epochs" := "10"]} : gmap string string) ∧
  ∃ content config own,
    config_files sample.world !! "default.cfg" = Some (text content) ∧
    configparser._read configparser.new "default.cfg" (str.lines content) = Ok config ∧
    configparser.getitem "train" (configparser._sections config) = Some own ∧
    (∀ key, is_Some (({["epochs" := "10"]} : gmap string string) !! key) ↔
            key ∈ own.*1 ∨ key ∈ (configparser._defaults config).*1) ∧
    (∀ key, is_Some (({["epochs" := "10"]} : gmap string string) !! key) →
            str.has_upper key = false).
Proof.
  split; [reflexivity|].
  exact (read_config_file_returns sample.world "default.cfg" logging.fresh
           {["epochs" := "10"]} eq_refl).
Defined.

(** X21.  A percent sign in a value is read as the start of an
    interpolation.  When the parser has read the file and an option of the
    [train] section, its own or one that it has from DEFAULT, has a value
    such as [20%], where the first percent sign is followed neither by [%]
    nor by an opening parenthesis, [read_config_file] raises an
    interpolation error and returns no dictionary. *)
Theorem read_config_file_bare_percent (w : World) (config_file : string) (f : file)
    (config : configparser.ConfigParser) (own : list (string * string))
    (key pre rest : string) (s : State) :
  config_files w !! config_file = Some f →
  configparser.read_file configparser.new config_file f = Ok config →
  configparser.getitem "train" (configparser._sections config) = Some own →
  chain own (configparser._defaults config) key = Some (pre +:+ String "%"%char rest) →
  configparser.has_percent pre = false →
  bare_percent rest = true →
  ∃ e, (read_config_file w config_file s).1 = Raise e ∧ is_interpolation_error e = true.
Proof.
  intros Hfile Hread Hown Hkey Hpre Hrest. rewrite read_config_file_run. cbn [fst].
  rewrite (train_options_read w config_file f config own Hfile Hread Hown).
  pose proof (lowercase_read_file _ _ _ Hread) as Hlow.
  assert (key ∈ configparser.options config "train") as Hin.
  { apply (elem_of_options _ _ _ _ Hown), chain_is_Some. by eexists. }
  destruct (options_of_section _ _ _ _ Hlow Hown Hin) as (_ & Hfix & _).
  destruct (dict_items_stops config "train" (configparser.options config "train") ∅ key
              (InterpolationSyntaxError key "train") Hin) as [e He].
  - unfold configparser.getitem_option.
    rewrite Hfix, (unified_chain _ _ _ _ Hown), Hkey.
    by apply _interpolate_some_bare_percent.
  - exists e. split; [done|]. by apply (dict_raise _ _ _ _ Hlow Hown).
Qed.

Lemma read_config_file_bare_percent_witness :
  config_files sample.world !! "percent.cfg" =
    Some (text (str.join_lines ["[train]"; "validation = 20%"; ""])) ∧
  configparser.read_file configparser.new "percent.cfg"
      (text (str.join_lines ["[train]"; "validation = 20%"; ""])) =
    Ok (configparser.mkConfigParser [] [("train", [("validation", "20%")])]) ∧
  chain [("validation", "20%")] [] "validation" = Some ("20" +:+ String "%"%char "") ∧
  configparser.has_percent "20" = false ∧
  bare_percent "" = true ∧
  ∃ e, (read_config_file sample.world "percent.cfg" logging.fresh).1 = Raise e ∧
       is_interpolation_error e = true.
Proof.
  split; [reflexivity|]. split; [reflexivity|]. split; [reflexivity|].
  split; [reflexivity|]. split; [reflexivity|].
  exact (read_config_file_bare_percent sample.world "percent.cfg"
           (text (str.join_lines ["[train]"; "validation = 20%"; ""]))
           (configparser.mkConfigParser [] [("train", [("validation", "20%")])])
           [("validation", "20%")] "validation" "20" "" logging.fresh
           eq_refl eq_refl eq_refl eq_refl eq_refl eq_refl).
Defined.

(** X22.  The exceptions of [read_config_file].  It raises
    [KeyError('train')]; an error of the parser's reading
    ([MissingSectionHeaderError], [ParsingError], [DuplicateSectionError],
    [DuplicateOptionError]); an interpolation error; or the exception with
    which the reading of the file itself stops, as [UnicodeDecodeError].  In
    particular it raises no [KeyError] for an option: every name that the
    section proxy lists is found again when its value is asked for. *)
Theorem read_config_file_outcomes (w : World) (config_file : string) (s : State) :
  match (read_config_file w config_file s).1 with
  | Ok _ => True
  | Raise e =>
      e = KeyError "train" ∨ is_reading_error e = true ∨
      is_interpolation_error e = true ∨
      ∃ content, config_files w !! config_file = Some (broken content e)
  end.
Proof.
  rewrite read_config_file_run. cbn [fst].
  destruct (train_options_inv w config_file)
    as [->|[(f & e & Hfile & Hread & ->)|(f & config & own & Hfile & Hread & Hown & ->)]].
  - by left.
  - right. destruct (read_file_raise _ _ _ Hread) as [He|[content ->]]; [by left|].
    right. right. by exists content.
  - destruct (configparser.dict config "train") as [m|e] eqn:Hdict; [done|].
    right. right. left.
    by apply (dict_raise _ _ _ _ (lowercase_read_file _ _ _ Hread) Hown).
Qed.

(** X23.  A file must begin with a section header.  When the first line that
    is neither a comment nor white space is no section header,
    [read_config_file] raises [MissingSectionHeaderError], whatever follows
    that line. *)
Theorem read_config_file_missing_header (w : World) (config_file content : string)
    (pre : list string) (line : string) (post : list string) (s : State) :
  config_files w !! config_file = Some (text content) →
  str.lines content = pre ++ line :: post →
  Forall (λ line, is_skipped line = true) pre →
  is_skipped line = false →
  configparser.header (str.strip line) = None →
  (read_config_file w config_file s).1 = Raise (MissingSectionHeaderError config_file).
Proof.
  intros Hfile Hlines Hpre Hline Hheader. rewrite read_config_file_run. cbn [fst].
  unfold train_options. rewrite Hfile. cbn [configparser.read_file].
  unfold configparser._read, configparser.read_all.
  rewrite Hlines, (read_lines_skipped _ _ _ _ Hpre).
  cbn [configparser.read_lines]. unfold configparser.read_line.
  unfold is_skipped in Hline. apply orb_false_elim in Hline as [-> Hvalue].
  destruct (str.strip line) as [|c value]; [done|].
  by rewrite Hheader.
Qed.

Lemma read_config_file_missing_header_witness :
  config_files sample.unread !! "headless.cfg" =
    Some (text (str.join_lines ["epochs = 10"; ""])) ∧
  str.lines (str.join_lines ["epochs = 10"; ""]) = [] ++ "epochs = 10" :: [] ∧
  is_skipped "epochs = 10" = false ∧
  configparser.header (str.strip "epochs = 10") = None ∧
  (read_config_file sample.unread "headless.cfg" logging.fresh).1 =
    Raise (MissingSectionHeaderError "headless.cfg").
Proof.
  split; [reflexivity|]. split; [reflexivity|]. split; [reflexivity|].
  split; [reflexivity|].
  exact (read_config_file_missing_header sample.unread "headless.cfg"
           (str.join_lines ["epochs = 10"; ""]) [] "epochs = 10" [] logging.fresh
           eq_refl eq_refl (List.Forall_nil _) eq_refl eq_refl).
Defined.

(** What the loop of [_read] raises while it runs; a [ParsingError] is
    raised only after the last line. *)
Lemma read_lines_raise_kind fpname lines : ∀ r e,
  configparser.read_lines fpname lines r = Raise e →
  e = MissingSectionHeaderError fpname ∨
  (∃ section, e = DuplicateSectionError section) ∨
  ∃ section optname, e = DuplicateOptionError section optname.
Proof.
  induction lines as [|line lines IH]; intros r e; cbn [configparser.read_lines]; [done|].
  destruct (configparser.read_line fpname line r) as [r1|e1] eqn:Hline; cbn [result_bind].
  - apply IH.
  - intros [= <-]. revert Hline. unfold configparser.read_line.
    repeat case_match; intros Hraise; inversion Hraise; eauto.
Qed.

(** X24.  A file whose reading stops with an exception that is no [OSError],
    as a file whose bytes do not decode, never yields a dictionary:
    [read_config_file] raises that exception, unless a line that was read
    before has raised [MissingSectionHeaderError], [DuplicateSectionError]
    or [DuplicateOptionError]. *)
Theorem read_config_file_broken_file (w : World) (config_file content : string)
    (e : exception) (s : State) :
  config_files w !! config_file = Some (broken content e) →
  ∃ e', (read_config_file w config_file s).1 = Raise e' ∧
        (e' = e ∨ e' = MissingSectionHeaderError config_file ∨
         (∃ section, e' = DuplicateSectionError section) ∨
         ∃ section optname, e' = DuplicateOptionError section optname).
Proof.
  intros Hfile. rewrite read_config_file_run. cbn [fst].
  unfold train_options. rewrite Hfile. cbn [configparser.read_file].
  unfold configparser.read_all.
  destruct (configparser.read_lines _ _ _) as [r|e'] eqn:Hread; cbn [result_bind].
  - exists e. split; [done|by left].
  - exists e'. split; [done|]. right. by apply (read_lines_raise_kind _ _ _ _ Hread).
Qed.

Lemma read_config_file_broken_file_witness :
  config_files sample.unread !! "binary.cfg" =
    Some (broken (str.join_lines ["[train]"; "epochs = 10"; ""]) UnicodeDecodeError) ∧
  (read_config_file sample.unread "binary.cfg" logging.fresh).1 =
    Raise UnicodeDecodeError ∧
  ∃ e', (read_config_file sample.unread "binary.cfg" logging.fresh).1 = Raise e' ∧
        (e' = UnicodeDecodeError ∨ e' = MissingSectionHeaderError "binary.cfg" ∨
         (∃ section, e' = DuplicateSectionError section) ∨
         ∃ section optname, e' = DuplicateOptionError section optname).
Proof.
  split; [reflexivity|]. split; [reflexivity|].
  exact (read_config_file_broken_file sample.unread "binary.cfg"
           (str.join_lines ["[train]"; "epochs = 10"; ""]) UnicodeDecodeError
           logging.fresh eq_refl).
Defined.
